(** * API enablement checking: [check], [enable], [ensure], [bestEffortEnsure]

    A shallow embedding of the API-enablement module (the file that imports
    [colorette], [./track], [./api], [./apiv2], [./utils], [./error],
    [./logger] and [./configstore]) together with the properties stated
    about it.

    The module is asynchronous but strictly sequential: every [await] is a
    point where the world may have changed before control comes back.  It is
    embedded as a state-and-exception monad over a [World] that holds the
    configstore entry, the number of HTTP requests issued so far and the
    trace of observable effects. *)

From Stdlib Require Import Strings.String Strings.Ascii Bool Arith Lia List.
From stdpp Require Import base option gmap strings.

Local Open Scope string_scope.

(** ** Errors *)

(** A thrown JavaScript value.  [name] is the error class ([FirebaseError],
    [TypeError], ...), [status] is [e.context?.body?.error?.status]. *)
Record JsError := mkJsError {
  name : string;
  message : string;
  status : option string;
}.

(** [(err as Error).message = m]: in-place update, every other property of
    the error is kept. *)
Definition set_message (err : JsError) (m : string) : JsError :=
  {| name := name err; message := m; status := status err |}.

(** [new FirebaseError(m)]: no context is attached. *)
Definition FirebaseError (m : string) : JsError :=
  {| name := "FirebaseError"; message := m; status := None |}.

(** What [new URL(s)] throws on an unparseable input. *)
Definition InvalidURL : JsError :=
  {| name := "TypeError"; message := "Invalid URL"; status := None |}.

(** ** The enablement cache *)

(** [Record<string, Record<string, boolean>>]: projectId -> apiName -> flag. *)
Abbreviation Cache := (gmap string (gmap string bool)).

Definition API_ENABLEMENT_CACHE_KEY : string := "apiEnablementCache".

(** The own entry of a (projectId, apiName) pair in the configstore value,
    which is [undefined] ([None]) until the first write. *)
Definition cache_lookup (c : option Cache) (projectId apiName : string) : option bool :=
  cache ← c; inner ← cache !! projectId; inner !! apiName.

(** ** Observable effects *)

Inductive Event :=
| ConfigGet (key : string)
| ConfigSet (key : string) (value : Cache)
| HttpGet (path quotaUser : string)
| HttpPost (path quotaUser : string)
| LogLabeledSuccess (label msg : string)
| LogLabeledBullet (label msg : string)
| LogLabeledWarning (label msg : string)
| LoggerDebug (msg : string)
| SetTimeout (ms : N)
| TrackGA4 (eventName api_name : string).

Definition is_get (e : Event) : bool :=
  match e with HttpGet _ _ => true | _ => false end.

Definition is_post (e : Event) : bool :=
  match e with HttpPost _ _ => true | _ => false end.

Definition count (f : Event -> bool) (t : list Event) : nat :=
  List.length (List.filter f t).

(** ** World and monad *)

(** [trace] lists the effects performed so far, most recent first. *)
Record World := mkWorld {
  store : option Cache;
  requests : nat;
  trace : list Event;
}.

Definition emit (e : Event) (w : World) : World :=
  {| store := store w; requests := requests w; trace := e :: trace w |}.

Inductive Outcome (A : Type) :=
| Return (a : A)
| Throw (e : JsError).
Arguments Return {A} a.
Arguments Throw {A} e.

Definition M (A : Type) : Type := World -> Outcome A * World.

Definition ret {A} (a : A) : M A := fun w => (Return a, w).

Definition bind {A B} (m : M A) (k : A -> M B) : M B :=
  fun w => match m w with
           | (Return a, w') => k a w'
           | (Throw e, w') => (Throw e, w')
           end.

Definition throw {A} (e : JsError) : M A := fun w => (Throw e, w).

(** [try { body } catch (err) { handler }] *)
Definition try_catch {A} (body : M A) (handler : JsError -> M A) : M A :=
  fun w => match body w with
           | (Return a, w') => (Return a, w')
           | (Throw e, w') => handler e w'
           end.

#[global] Instance M_ret : MRet M := @ret.
#[global] Instance M_bind : MBind M := fun A B k m => bind m k.

Definition perform (e : Event) : M unit := fun w => (Return tt, emit e w).

(** Number of requests sent to the enable endpoint / status endpoint. *)
Definition posts (w : World) : nat := count is_post (trace w).
Definition gets (w : World) : nat := count is_get (trace w).

(** ** External capabilities *)

(** The collaborators the module imports.  Their code is not part of the
    module; each is taken as given.
    - [bold]: [colorette]'s styling function;
    - [isBillingError]: the classifier exported by [./error];
    - [URL_hostname s]: [new URL(s).hostname], [None] when the constructor
      throws;
    - [get_reply n path]: what the [n]-th request of the session, a GET on
      [path], is answered with: a thrown error or the [state] field of the
      response body;
    - [post_reply n path]: likewise for a POST, [None] meaning success;
    - [inherited name]: in the running process, bracket access with [name]
      on a plain object that has no own property of that name finds one
      through the prototype chain (the members of [Object.prototype], built
      in or added since). *)
Class Platform := {
  bold : string -> string;
  isBillingError : JsError -> bool;
  URL_hostname : string -> option string;
  get_reply : nat -> string -> JsError + string;
  post_reply : nat -> string -> option JsError;
  inherited : string -> bool;
}.

(** ** The permission-denied pattern *)

(** A character range [lo-hi] of a class, by character code. *)
Definition in_range (lo hi c : ascii) : bool :=
  Nat.leb (nat_of_ascii lo) (nat_of_ascii c)
  && Nat.leb (nat_of_ascii c) (nat_of_ascii hi).

(** The character class [[.a-zA-Z]]. *)
Definition service_char (c : ascii) : bool :=
  (Ascii.eqb c "." || in_range "a" "z" c || in_range "A" "Z" c)%char.

(** Consume a literal at the head of the subject. *)
Fixpoint strip_prefix (lit s : string) : option string :=
  match lit with
  | EmptyString => Some s
  | String a lit' =>
      match s with
      | String b s' => if Ascii.eqb a b then strip_prefix lit' s' else None
      | EmptyString => None
      end
  end.

(** The longest run of characters satisfying [p] (a greedy [[...]*]) and
    what follows it. *)
Fixpoint span (p : ascii -> bool) (s : string) : string * string :=
  match s with
  | String c s' =>
      if p c then let (run, rest) := span p s' in (String c run, rest)
      else (EmptyString, s)
  | EmptyString => (EmptyString, EmptyString)
  end.

Definition permission_denied_literal : string :=
  "Permission denied to enable service [".

(** [/Permission denied to enable service \[([.a-zA-Z]+)\]/] anchored at the
    head of [s]; the result is capture group 1.  The closing bracket is not
    in the class, so giving back characters of the greedy run never helps:
    the match succeeds exactly when the longest run is non-empty and is
    followed by the bracket. *)
Definition match_here (s : string) : option string :=
  match strip_prefix permission_denied_literal s with
  | Some rest =>
      match span service_char rest with
      | (String c run, String "]"%char _) => Some (String c run)
      | _ => None
      end
  | None => None
  end.

(** [apiPermissionDeniedRegex.exec(s)] projected on [[1]]: the regex has no
    [g] or [y] flag, so the search starts at index 0 and returns the
    leftmost match. *)
Fixpoint apiPermissionDeniedRegex_exec (s : string) : option string :=
  match match_here s with
  | Some x => Some x
  | None =>
      match s with
      | String _ s' => apiPermissionDeniedRegex_exec s'
      | EmptyString => None
      end
  end.

(** ** The module *)

Definition LF : string := String (ascii_of_nat 10) EmptyString.

(** [POLL_SETTINGS] *)
Definition pollInterval : N := 10000%N.
Definition pollsBeforeRetry : nat := 12.

Section EnsureApiEnabled.
Context `{Platform}.

(** *** configstore *)

(** Modelled from the spec: [./configstore] is not among the sources.  The
    specification describes it as a persistent key-value store read and
    written under the fixed key [apiEnablementCache]: [get] returns what the
    last [set] stored, [undefined] before the first one. *)
Definition configstore_get : M (option Cache) :=
  fun w => (Return (store w), emit (ConfigGet API_ENABLEMENT_CACHE_KEY) w).

(** Modelled from the spec: the write half of the same store. *)
Definition configstore_set (value : Cache) : M unit :=
  fun w => (Return tt,
            {| store := Some value; requests := requests w;
               trace := ConfigSet API_ENABLEMENT_CACHE_KEY value :: trace w |}).

(** *** apiClient *)

Definition sent (e : Event) (w : World) : World :=
  {| store := store w; requests := S (requests w); trace := e :: trace w |}.

(** Modelled from the spec: the [Client] of [./apiv2] is not among the
    sources.  A request either resolves with the response or rejects with
    an error; [apiClient.get<{ state: string }>(path, ...)] is projected on
    [res.body.state], the field [check] reads. *)
Definition apiClient_get (path quotaUser : string) : M string :=
  fun w => match get_reply (requests w) path with
           | inr state => (Return state, sent (HttpGet path quotaUser) w)
           | inl err => (Throw err, sent (HttpGet path quotaUser) w)
           end.

(** Modelled from the spec: [apiClient.post] of the same client, with an
    empty body. *)
Definition apiClient_post (path quotaUser : string) : M unit :=
  fun w => match post_reply (requests w) path with
           | None => (Return tt, sent (HttpPost path quotaUser) w)
           | Some err => (Throw err, sent (HttpPost path quotaUser) w)
           end.

(** [new URL(apiUri).hostname] *)
Definition new_URL_hostname (apiUri : string) : M string :=
  match URL_hostname apiUri with
  | Some h => mret h
  | None => throw InvalidURL
  end.

(** *** Cache access *)

(** The two helpers use bracket access on plain objects.  They are modelled
    on the own entries of the cache, which is what the source reads and
    writes for a project id and a service name that are not [inherited].
    For an inherited name the source can reach a member of
    [Object.prototype] instead of an entry; that is left out of the model,
    and the statements that depend on what a lookup misses or on what a
    write stores are made for names that are not inherited. *)
Definition checkAPIEnablementCache (projectId apiName : string) : M bool :=
  cache ← configstore_get;
  mret (default false (cache_lookup cache projectId apiName)).

Definition cacheEnabledAPI (projectId apiName : string) : M unit :=
  stored ← configstore_get;
  let cache := default ∅ stored in
  let cache := match cache !! projectId with
               | None => <[projectId := ∅]> cache
               | Some _ => cache
               end in
  let cache := alter (insert apiName true) projectId cache in
  configstore_set cache.

(** *** check *)

Definition status_path (projectId apiName : string) : string :=
  "/projects/" +:+ projectId +:+ "/services/" +:+ apiName.

Definition quota_user (projectId : string) : string :=
  "projects/" +:+ projectId.

Definition check (projectId apiUri prefix : string) (silent : bool) : M bool :=
  apiName ← (if String.prefix "http" apiUri then new_URL_hostname apiUri
             else mret apiUri);
  hit ← checkAPIEnablementCache projectId apiName;
  if (hit : bool) then mret true
  else
    state ← apiClient_get (status_path projectId apiName) (quota_user projectId);
    let isEnabled := String.eqb state "ENABLED" in
    (if isEnabled && negb silent
     then perform (LogLabeledSuccess prefix
                     ("required API " +:+ bold apiName +:+ " is enabled"))
     else mret tt);;
    (if isEnabled then cacheEnabledAPI projectId apiName else mret tt);;
    mret isEnabled.

Definition isPermissionError (e : JsError) : bool :=
  bool_decide (status e = Some "PERMISSION_DENIED").

(** *** enable *)

Definition enable_path (projectId apiName : string) : string :=
  "/projects/" +:+ projectId +:+ "/services/" +:+ apiName +:+ ":enable".

Definition upgrade_url (projectId : string) : string :=
  "https://console.firebase.google.com/project/" +:+ projectId +:+ "/usage/details".

Definition billing_message (projectId apiName : string) : string :=
  "Your project " +:+ bold projectId
  +:+ " must be on the Blaze (pay-as-you-go) plan to complete this command. Required API "
  +:+ bold apiName
  +:+ " can't be enabled until the upgrade is complete. To upgrade, visit the following URL:"
  +:+ LF +:+ LF +:+ upgrade_url projectId.

Definition library_url (serviceUrl projectId : string) : string :=
  "https://console.cloud.google.com/apis/library/" +:+ serviceUrl
  +:+ "?project=" +:+ projectId.

Definition permission_message (serviceUrl projectId : string) : string :=
  "Permissions denied enabling " +:+ serviceUrl +:+ "." +:+ LF
  +:+ "        Please ask a project owner to visit the following URL to enable this service:"
  +:+ LF +:+ "        " +:+ LF
  +:+ "        " +:+ library_url serviceUrl projectId.

Definition enable (projectId apiName : string) : M unit :=
  try_catch
    (apiClient_post (enable_path projectId apiName) (quota_user projectId);;
     cacheEnabledAPI projectId apiName)
    (fun err =>
       if isBillingError err then
         throw (FirebaseError (billing_message projectId apiName))
       else if isPermissionError err then
         match apiPermissionDeniedRegex_exec (message err) with
         | Some serviceUrl =>
             throw (set_message err (permission_message serviceUrl projectId))
         | None => throw err
         end
       else throw err).

(** *** pollCheckEnabled and enableApiWithRetries *)

(** The two functions call each other.  [retry] is their common body,
    indexed by which of the two is running and with which counters; the
    recursion is on a step budget that [budget] computes from the counters,
    so that [pollCheckEnabled] and [enableApiWithRetries] below are total
    functions of their arguments ([pollCheckEnabled_eq] and
    [enableApiWithRetries_eq] state the source's bodies). *)
Inductive Frame :=
| Polling (enablementRetries pollRetries : nat)
| Enabling (enablementRetries : nat).

Definition timeout_message (apiName : string) : string :=
  "Timed out waiting for API " +:+ bold apiName
  +:+ " to enable. Please try again in a few minutes.".

Fixpoint retry (fuel : nat) (projectId apiName prefix : string) (silent : bool)
    (f : Frame) : M unit :=
  match fuel with
  | O => mret tt
  | S fuel =>
      match f with
      | Enabling enablementRetries =>
          if Nat.ltb 1 enablementRetries then
            throw (FirebaseError (timeout_message apiName))
          else
            enable projectId apiName;;
            retry fuel projectId apiName prefix silent
              (Polling enablementRetries 0)
      | Polling enablementRetries pollRetries =>
          if Nat.ltb pollsBeforeRetry pollRetries then
            retry fuel projectId apiName prefix silent
              (Enabling (enablementRetries + 1))
          else
            perform (SetTimeout pollInterval);;
            isEnabled ← check projectId apiName prefix silent;
            if (isEnabled : bool) then
              perform (TrackGA4 "api_enabled" apiName);;
              mret tt
            else
              (if negb silent
               then perform (LogLabeledBullet prefix
                               ("waiting for API " +:+ bold apiName
                                +:+ " to activate..."))
               else mret tt);;
              retry fuel projectId apiName prefix silent
                (Polling enablementRetries (pollRetries + 1))
      end
  end.

(** Steps left before the recursion stops on its own: at most two enable
    attempts, each followed by at most [pollsBeforeRetry + 1] polls and the
    call that notices the poll counter has run out. *)
Definition budget (f : Frame) : nat :=
  match f with
  | Enabling enablementRetries =>
      1 + (2 - enablementRetries) * (pollsBeforeRetry + 3)
  | Polling enablementRetries pollRetries =>
      2 + (pollsBeforeRetry + 1 - pollRetries)
      + (1 - enablementRetries) * (pollsBeforeRetry + 3)
  end.

Definition pollCheckEnabled (projectId apiName prefix : string) (silent : bool)
    (enablementRetries pollRetries : nat) : M unit :=
  retry (budget (Polling enablementRetries pollRetries))
    projectId apiName prefix silent (Polling enablementRetries pollRetries).

Definition enableApiWithRetries (projectId apiName prefix : string)
    (silent : bool) (enablementRetries : nat) : M unit :=
  retry (budget (Enabling enablementRetries))
    projectId apiName prefix silent (Enabling enablementRetries).

(** *** ensure and bestEffortEnsure *)

Definition ensure (projectId apiUri prefix : string) (silent : bool) : M unit :=
  hostname ← (if String.prefix "http" apiUri then new_URL_hostname apiUri
              else mret apiUri);
  (if negb silent
   then perform (LogLabeledBullet prefix
                   ("ensuring required API " +:+ bold hostname
                    +:+ " is enabled..."))
   else mret tt);;
  isEnabled ← check projectId hostname prefix silent;
  if (isEnabled : bool) then mret tt
  else
    (if negb silent
     then perform (LogLabeledWarning prefix
                     ("missing required API " +:+ bold hostname
                      +:+ ". Enabling now..."))
     else mret tt);;
    enableApiWithRetries projectId hostname prefix silent 0.

Definition bestEffortEnsure (projectId apiUri prefix : string) (silent : bool)
    : M unit :=
  try_catch
    (ensure projectId apiUri prefix silent)
    (fun err =>
       perform (LoggerDebug
                  ("Unable to check that " +:+ apiUri +:+ " is enabled on "
                   +:+ projectId
                   +:+ ". Calls to it will fail if it is not enabled"))).


End EnsureApiEnabled.

(** ** A concrete platform *)

(** Used to run the module on concrete inputs.  Colours are off, so [bold]
    leaves its argument unchanged; a reply is classified as a billing
    restriction by its [FAILED_PRECONDITION] status; the inherited names
    are the built-in members of [Object.prototype]; the URL parser accepts
    [scheme://host], optionally followed by a port, path, query or fragment,
    and rejects a string with no [://], which is all the inputs below need
    ([new URL] rejects a string without a scheme in the same way). *)
Definition host_char (c : ascii) : bool :=
  negb (Ascii.eqb c "/" || Ascii.eqb c "?" || Ascii.eqb c "#" || Ascii.eqb c ":")%char.

Definition sample_hostname (s : string) : option string :=
  match String.index 0 "://" s with
  | Some (S n) =>
      match fst (span host_char (String.substring (S n + 3) (String.length s) s)) with
      | EmptyString => None
      | host => Some host
      end
  | _ => None
  end.

(** The members of [Object.prototype] in a fresh Node process. *)
Definition object_prototype_members : list string :=
  ["constructor"; "__defineGetter__"; "__defineSetter__"; "hasOwnProperty";
   "__lookupGetter__"; "__lookupSetter__"; "isPrototypeOf";
   "propertyIsEnumerable"; "toString"; "valueOf"; "__proto__";
   "toLocaleString"].

Definition scripted (gets_ : nat -> string -> JsError + string)
    (posts_ : nat -> string -> option JsError) : Platform :=
  {| bold := fun s => s;
     isBillingError := fun e => bool_decide (status e = Some "FAILED_PRECONDITION");
     URL_hostname := sample_hostname;
     get_reply := gets_;
     post_reply := posts_;
     inherited := fun name => existsb (String.eqb name) object_prototype_members |}.

(** Every status query answers [DISABLED], every enable request succeeds. *)
Definition never_enabled : Platform :=
  scripted (fun _ _ => inr "DISABLED") (fun _ _ => None).

(** Every status query answers [ENABLED]. *)
Definition always_enabled : Platform :=
  scripted (fun _ _ => inr "ENABLED") (fun _ _ => None).

(** The first status query answers [DISABLED], the later ones [ENABLED]. *)
Definition enabled_later : Platform :=
  scripted (fun n _ => if Nat.eqb n 0 then inr "DISABLED" else inr "ENABLED")
           (fun _ _ => None).

(** The enable endpoint refuses with the given error. *)
Definition enable_refused (err : JsError) : Platform :=
  scripted (fun _ _ => inr "DISABLED") (fun _ _ => Some err).

(** The status endpoint is unreachable. *)
Definition transport_failure : Platform :=
  scripted (fun _ _ => inl {| name := "FetchError"; message := "socket hang up";
                              status := None |})
           (fun _ _ => None).

(** The enable endpoint answers with a permission refusal that names a
    service, or with a billing restriction. *)
Definition permission_refusal : JsError :=
  {| name := "FirebaseError";
     message := "HTTP Error: 403, Permission denied to enable service [foo.googleapis.com]";
     status := Some "PERMISSION_DENIED" |}.

(** A refusal whose service name has a hyphen, which the pattern's
    character class leaves out. *)
Definition hyphen_refusal : JsError :=
  {| name := "FirebaseError";
     message := "HTTP Error: 403, Permission denied to enable service [storage-component.googleapis.com]";
     status := Some "PERMISSION_DENIED" |}.

(** A refusal that is neither a permission denial nor a billing
    restriction. *)
Definition server_error : JsError :=
  {| name := "FirebaseError";
     message := "HTTP Error: 500, Internal error encountered.";
     status := Some "INTERNAL" |}.

Definition billing_refusal : JsError :=
  {| name := "FirebaseError";
     message := "HTTP Error: 400, Billing must be enabled for activation of service";
     status := Some "FAILED_PRECONDITION" |}.

Definition is_request (e : Event) : bool := is_get e || is_post e.

(** A fresh process: nothing cached, nothing sent, nothing logged. *)
Definition fresh : World := {| store := None; requests := 0; trace := [] |}.

(** A process whose configstore already holds the given pair. *)
Definition cached_world (projectId apiName : string) : World :=
  {| store := Some {[ projectId := {[ apiName := true ]} ]};
     requests := 0; trace := [] |}.

(** * The release script *)

(** [publish.sh], a [bash] script run with [set -e].  It is embedded as a
    program over the log of what the shell has done so far, most recent
    entry first.  What the commands it starts do (exit status, text
    captured by [$(...)]) is given by a [Machine], which may answer
    differently as the log grows.  Writing a line to the terminal with
    [echo] is taken to succeed. *)
Module Publish.

(** One thing the shell did: printed a line, ran a command line (one word
    per element, with [>>] and the file for a redirection) under [set -e],
    or ran the command of an [if] condition. *)
Inductive Entry :=
| Echo (line : string)
| Ran (argv : list string) (status : nat)
| Tested (argv : list string) (status : nat).

Record Machine := {
  exit_status : list Entry -> list string -> nat;
  output : list Entry -> list string -> string;
}.

(** Either the script goes on, or the shell exits with a code. *)
Inductive Flow (A : Type) :=
| Next (a : A)
| Exit (code : nat).
Arguments Next {A} a.
Arguments Exit {A} code.

Definition Sh (A : Type) : Type := list Entry -> Flow A * list Entry.

#[global] Instance Sh_ret : MRet Sh := fun A a log => (Next a, log).
#[global] Instance Sh_bind : MBind Sh :=
  fun A B k m log =>
    match m log with
    | (Next a, log') => k a log'
    | (Exit code, log') => (Exit code, log')
    end.

Definition exit {A} (code : nat) : Sh A := fun log => (Exit code, log).

Definition echo (line : string) : Sh unit :=
  fun log => (Next tt, Echo line :: log).

Section Shell.
Variable m : Machine.

(** A simple command under [set -e]: a non-zero status ends the script
    with that status. *)
Definition run (argv : list string) : Sh unit :=
  fun log =>
    match exit_status m log argv with
    | O => (Next tt, Ran argv 0 :: log)
    | S n => (Exit (S n), Ran argv (S n) :: log)
    end.

(** [trap "echo 'msg'; exit 1" ERR], the command, [trap - ERR]: a non-zero
    status runs the trap, which prints the message and exits with 1. *)
Definition run_trapped (msg : string) (argv : list string) : Sh unit :=
  fun log =>
    match exit_status m log argv with
    | O => (Next tt, Ran argv 0 :: log)
    | S n => (Exit 1, Echo msg :: Ran argv (S n) :: log)
    end.

(** [VAR=$(command)]: the status of the assignment is the status of the
    command, so [set -e] applies; on success the captured text is the
    value. *)
Definition capture (argv : list string) : Sh string :=
  fun log =>
    match exit_status m log argv with
    | O => (Next (output m log argv), Ran argv 0 :: log)
    | S n => (Exit (S n), Ran argv (S n) :: log)
    end.

(** The command of an [if]: its status decides the branch and [set -e]
    does not apply. *)
Definition test (argv : list string) : Sh bool :=
  fun log =>
    (Next (Nat.eqb (exit_status m log argv) 0),
     Tested argv (exit_status m log argv) :: log).

Definition printusage : Sh unit :=
  echo "publish.sh <version>";;
  echo "REPOSITORY_ORG and REPOSITORY_NAME should be set in the environment.";;
  echo "e.g. REPOSITORY_ORG=user, REPOSITORY_NAME=repo";;
  echo "";;
  echo "Arguments:";;
  echo "  version: 'patch', 'minor', 'major', or 'artifactsOnly'".

(** The script from [WDIR=$(pwd)] to its last line. *)
Definition release (VERSION REPOSITORY_ORG REPOSITORY_NAME : string) : Sh unit :=
  WDIR ← capture ["pwd"];
  echo "Checking for commands...";;
  run_trapped "Missing hub." ["which"; "hub"];;
  run_trapped "Missing node." ["which"; "node"];;
  run_trapped "Missing jq." ["which"; "jq"];;
  echo "Checking for logged-in npm user...";;
  run_trapped
    "Please login to npm using `npm login --registry https://wombat-dressing-room.appspot.com`"
    ["npm"; "whoami"; "--registry"; "https://wombat-dressing-room.appspot.com"];;
  echo "Checked for logged-in npm user.";;
  echo "Moving to temporary directory..";;
  TEMPDIR ← capture ["mktemp"; "-d"];
  echo ("[DEBUG] " +:+ TEMPDIR);;
  run ["cd"; TEMPDIR];;
  echo "Moved to temporary directory.";;
  echo "Cloning repository...";;
  run ["git"; "clone";
       "git@github.com:" +:+ REPOSITORY_ORG +:+ "/" +:+ REPOSITORY_NAME +:+ ".git"];;
  run ["cd"; REPOSITORY_NAME];;
  echo "Cloned repository.";;
  echo "Making sure there is a changelog...";;
  empty ← test ["["; "!"; "-s"; "CHANGELOG.md"; "]"];
  (if (empty : bool) then echo "CHANGELOG.md is empty. aborting.";; exit 1
   else mret tt);;
  echo "Made sure there is a changelog.";;
  echo "Running npm install...";;
  run ["npm"; "install"];;
  echo "Ran npm install.";;
  echo "Running tests...";;
  run ["npm"; "test"];;
  echo "Ran tests.";;
  echo ("Making a " +:+ VERSION +:+ " version...");;
  run ["npm"; "version"; VERSION];;
  NEW_VERSION ← capture ["jq"; "-r"; ".version"; "package.json"];
  echo ("Made a " +:+ VERSION +:+ " version.");;
  echo "Making the release notes...";;
  RELEASE_NOTES_FILE ← capture ["mktemp"];
  echo ("[DEBUG] " +:+ RELEASE_NOTES_FILE);;
  run ["echo"; "v" +:+ NEW_VERSION; ">>"; RELEASE_NOTES_FILE];;
  run ["echo"; ""; ">>"; RELEASE_NOTES_FILE];;
  run ["cat"; "CHANGELOG.md"; ">>"; RELEASE_NOTES_FILE];;
  echo "Made the release notes.";;
  echo "Publishing to npm...";;
  run ["npx"; "clean-publish@5.0.0"; "--before-script";
       "./scripts/clean-shrinkwrap.sh"];;
  echo "Published to npm.";;
  echo "Updating package-lock.json for Docker image...";;
  run ["npm"; "--prefix"; "./scripts/publish/firebase-docker-image"; "install"];;
  echo "Updated package-lock.json for Docker image.";;
  echo "Cleaning up release notes...";;
  run ["rm"; "CHANGELOG.md"];;
  run ["touch"; "CHANGELOG.md"];;
  run ["git"; "commit"; "-m";
       "[firebase-release] Removed change log and reset repo after "
       +:+ NEW_VERSION +:+ " release";
       "CHANGELOG.md"; "scripts/publish/firebase-docker-image/package-lock.json"];;
  echo "Cleaned up release notes.";;
  echo "Pushing to GitHub...";;
  run ["git"; "push"; "origin"; "master"; "--tags"];;
  echo "Pushed to GitHub.";;
  echo "Publishing release notes...";;
  run ["hub"; "release"; "create"; "--file"; RELEASE_NOTES_FILE;
       "v" +:+ NEW_VERSION];;
  echo "Published release notes.".

(** The whole script; [VERSION] is [$1], the other two come from the
    environment, and an unset variable expands to the empty string. *)
Definition script (VERSION REPOSITORY_ORG REPOSITORY_NAME : string) : Sh unit :=
  (if String.eqb VERSION "" then printusage;; exit 1
   else if String.eqb VERSION "artifactsOnly" then
     echo "Skipping npm package publish since VERSION is artifactsOnly.";;
     exit 0
   else if negb (String.eqb VERSION "patch" || String.eqb VERSION "minor"
                 || String.eqb VERSION "major") then
     printusage;; exit 1
   else mret tt);;
  (if String.eqb REPOSITORY_ORG "" then printusage;; exit 1 else mret tt);;
  (if String.eqb REPOSITORY_NAME "" then printusage;; exit 1 else mret tt);;
  release VERSION REPOSITORY_ORG REPOSITORY_NAME.

(** Running the script in a fresh shell: its exit code (0 when the last
    line is reached) and the log, most recent entry first. *)
Definition publish_sh (VERSION REPOSITORY_ORG REPOSITORY_NAME : string)
    : nat * list Entry :=
  match script VERSION REPOSITORY_ORG REPOSITORY_NAME [] with
  | (Next _, log) => (0, log)
  | (Exit code, log) => (code, log)
  end.

End Shell.

(** The commands among the entries (everything but [echo]). *)
Definition is_command (e : Entry) : bool :=
  match e with Echo _ => false | _ => true end.

Definition commands (log : list Entry) : list Entry := List.filter is_command log.

(** A command that lets the script go on: status 0, or for the changelog
    test a non-zero status (the file exists and is not empty). *)
Definition went_on (e : Entry) : bool :=
  match e with
  | Echo _ => true
  | Ran _ status => Nat.eqb status 0
  | Tested _ status => negb (Nat.eqb status 0)
  end.

(** The command line [argv] starts with [words]. *)
Fixpoint starts_with (words argv : list string) : bool :=
  match words, argv with
  | [], _ => true
  | word :: words', arg :: argv' => String.eqb word arg && starts_with words' argv'
  | _ :: _, [] => false
  end.

(** The log has a run of a command line starting with [words]; the same
    with status 0. *)
Definition did (words : list string) (log : list Entry) : bool :=
  existsb (fun e => match e with
                    | Ran argv _ => starts_with words argv
                    | _ => false
                    end) log.

Definition did_ok (words : list string) (log : list Entry) : bool :=
  existsb (fun e => match e with
                    | Ran argv 0 => starts_with words argv
                    | _ => false
                    end) log.

(** The changelog test ran and found the file present and not empty. *)
Definition changelog_found (log : list Entry) : bool :=
  existsb (fun e => match e with
                    | Tested _ (S _) => true
                    | _ => false
                    end) log.

(** The facts about a run that the properties of the script are read
    from, as one computable check of its exit code and log:
    - every command but the last one started let the script go on, and all
      of them did if the exit code is 0;
    - if the package was published, every check before it had passed;
    - if the exit code is 0 and the version is not [artifactsOnly], the
      arguments were those of a release and the release was completed. *)
Definition audit (VERSION REPOSITORY_ORG REPOSITORY_NAME : string)
    (r : nat * list Entry) : bool :=
  let log := snd r in
  forallb went_on (List.tl (commands log))
  && implb (Nat.eqb (fst r) 0) (forallb went_on (commands log))
  && implb (did ["npx"; "clean-publish@5.0.0"] log)
       (did_ok ["which"; "hub"] log
        && did_ok ["which"; "node"] log
        && did_ok ["which"; "jq"] log
        && did_ok ["npm"; "whoami"] log
        && did_ok ["git"; "clone"] log
        && changelog_found log
        && did_ok ["npm"; "install"] log
        && did_ok ["npm"; "test"] log
        && did_ok ["npm"; "version"] log)
  && implb (Nat.eqb (fst r) 0 && negb (String.eqb VERSION "artifactsOnly"))
       ((String.eqb VERSION "patch" || String.eqb VERSION "minor"
         || String.eqb VERSION "major")
        && negb (String.eqb REPOSITORY_ORG "")
        && negb (String.eqb REPOSITORY_NAME "")
        && did_ok ["npx"; "clean-publish@5.0.0"] log
        && did_ok ["git"; "commit"] log
        && did_ok ["git"; "push"; "origin"; "master"; "--tags"] log
        && did_ok ["hub"; "release"; "create"] log).

(** The usage text, as log entries. *)
Definition usage : list Entry :=
  [Echo "  version: 'patch', 'minor', 'major', or 'artifactsOnly'";
   Echo "Arguments:";
   Echo "";
   Echo "e.g. REPOSITORY_ORG=user, REPOSITORY_NAME=repo";
   Echo "REPOSITORY_ORG and REPOSITORY_NAME should be set in the environment.";
   Echo "publish.sh <version>"].

(** A version argument that asks for a release. *)
Definition release_version (VERSION : string) : Prop :=
  VERSION = "patch" \/ VERSION = "minor" \/ VERSION = "major".

(** A machine on which every command succeeds and the changelog is not
    empty, and one on which the tests fail. *)
Definition obliging : Machine :=
  {| exit_status := fun _ argv =>
       match argv with "[" :: _ => 1 | _ => 0 end;
     output := fun _ argv =>
       match argv with
       | "jq" :: _ => "13.0.1"
       | "mktemp" :: "-d" :: _ => "/tmp/tmp.dir"
       | "mktemp" :: _ => "/tmp/tmp.notes"
       | _ => "/home/release"
       end |}.

Definition failing_tests : Machine :=
  {| exit_status := fun _ argv =>
       match argv with
       | "[" :: _ => 1
       | "npm" :: "test" :: _ => 2
       | _ => 0
       end;
     output := output obliging |}.

End Publish.

(** ** Vocabulary of the statements *)

(** [sub] occurs in [s]. *)
Definition includes (s sub : string) : Prop :=
  exists before after : string, s = before +:+ sub +:+ after.

(** [s.includes(sub)], computed: [sub] starts at some position of [s]. *)
Fixpoint occurs (sub s : string) {struct s} : bool :=
  match strip_prefix sub s with
  | Some _ => true
  | None =>
      match s with
      | EmptyString => false
      | String _ s' => occurs sub s'
      end
  end.

Definition is_config_set (e : Event) : bool :=
  match e with ConfigSet _ _ => true | _ => false end.

(** Number of writes to the configstore. *)
Definition writes (w : World) : nat := count is_config_set (trace w).

(** Every character of [s] satisfies [p]. *)
Fixpoint all_chars (p : ascii -> bool) (s : string) : bool :=
  match s with
  | String c s' => p c && all_chars p s'
  | EmptyString => true
  end.

(** The permission-denied pattern in words: the text
    [Permission denied to enable service [X]] occurs in [msg], for a
    non-empty [X] made of letters and dots. *)
Definition names_denied_service (msg X : string) : Prop :=
  X <> "" /\ all_chars service_char X = true
  /\ includes msg (permission_denied_literal +:+ X +:+ "]").

(** The service name [check] and [ensure] derive from their [apiUri]
    argument, when the derivation does not throw. *)
Definition apiNameOf `{Platform} (apiUri : string) : option string :=
  if String.prefix "http" apiUri then URL_hostname apiUri else Some apiUri.

(** The world in which [ensure] calls [check]: its own first log line has
    been printed unless [silent]. *)
Definition announced `{Platform} (prefix hostname : string) (silent : bool)
    (w : World) : World :=
  if silent then w
  else emit (LogLabeledBullet prefix
               ("ensuring required API " +:+ bold hostname +:+ " is enabled..."))
            w.

(** Going from cache [old] to cache [new], every pair keeps its entry or
    has the entry [true]: nothing is deleted, nothing is set to [false]. *)
Definition cache_grows (old new : option Cache) : Prop :=
  forall projectId apiName : string,
    cache_lookup new projectId apiName = cache_lookup old projectId apiName
    \/ cache_lookup new projectId apiName = Some true.

(** The configstore value after the events [t] (most recent first), starting
    from [c0]. *)
Fixpoint store_after (c0 : option Cache) (t : list Event) : option Cache :=
  match t with
  | [] => c0
  | ConfigSet _ value :: _ => Some value
  | _ :: older => store_after c0 older
  end.

(** Every configstore write among the events [t] (most recent first) is
    made under the enablement key and grows the cache it found. *)
Fixpoint writes_grow (c0 : option Cache) (t : list Event) : Prop :=
  match t with
  | [] => True
  | ConfigSet key value :: older =>
      key = API_ENABLEMENT_CACHE_KEY
      /\ cache_grows (store_after c0 older) (Some value)
      /\ writes_grow c0 older
  | _ :: older => writes_grow c0 older
  end.

(** [w'] is [w] after some more events, all of whose writes grow the cache. *)
Definition extends (w w' : World) : Prop :=
  exists evs : list Event,
    trace w' = (evs ++ trace w)%list
    /\ store w' = store_after (store w) evs
    /\ writes_grow (store w) evs.

(** A computation all of whose runs extend the world they start from. *)
Definition growing {A} (m : M A) : Prop := forall w, extends w (snd (m w)).

(** The operations of the module, exported or internal. *)
Inductive Operation :=
| CallCheck (projectId apiUri prefix : string) (silent : bool)
| CallEnable (projectId apiName : string)
| CallPollCheckEnabled (projectId apiName prefix : string) (silent : bool)
    (enablementRetries pollRetries : nat)
| CallEnableApiWithRetries (projectId apiName prefix : string) (silent : bool)
    (enablementRetries : nat)
| CallEnsure (projectId apiUri prefix : string) (silent : bool)
| CallBestEffortEnsure (projectId apiUri prefix : string) (silent : bool)
| CallCheckAPIEnablementCache (projectId apiName : string)
| CallCacheEnabledAPI (projectId apiName : string).

(** The world an operation leaves behind, whether it returns or throws. *)
Definition world_after `{Platform} (op : Operation) (w : World) : World :=
  match op with
  | CallCheck p u pre s => snd (check p u pre s w)
  | CallEnable p a => snd (enable p a w)
  | CallPollCheckEnabled p a pre s er pr => snd (pollCheckEnabled p a pre s er pr w)
  | CallEnableApiWithRetries p a pre s er => snd (enableApiWithRetries p a pre s er w)
  | CallEnsure p u pre s => snd (ensure p u pre s w)
  | CallBestEffortEnsure p u pre s => snd (bestEffortEnsure p u pre s w)
  | CallCheckAPIEnablementCache p a => snd (checkAPIEnablementCache p a w)
  | CallCacheEnabledAPI p a => snd (cacheEnabledAPI p a w)
  end.

(** The closed form of the cache [cacheEnabledAPI] stores: the pair's
    project gets its map of services, extended with the service. *)
Definition with_enabled (projectId apiName : string) (stored : option Cache)
    : Cache :=
  let cache := default ∅ stored in
  <[projectId := <[apiName := true]> (default ∅ (cache !! projectId))]> cache.

(** The labelled log lines of [./utils], which [silent] is meant to
    suppress. *)
Definition is_labeled_log (e : Event) : bool :=
  match e with
  | LogLabeledSuccess _ _ | LogLabeledBullet _ _ | LogLabeledWarning _ _ => true
  | _ => false
  end.

Definition labeled_logs (w : World) : nat := count is_labeled_log (trace w).

(** How many enable requests, and how many status queries, the counters of
    a frame still allow. *)
Definition enables_left (f : Frame) : nat :=
  match f with
  | Enabling enablementRetries => 2 - enablementRetries
  | Polling enablementRetries _ => 1 - enablementRetries
  end.

Definition polls_left (f : Frame) : nat :=
  match f with
  | Enabling enablementRetries =>
      (2 - enablementRetries) * (pollsBeforeRetry + 1)
  | Polling enablementRetries pollRetries =>
      (pollsBeforeRetry + 1 - pollRetries)
      + (1 - enablementRetries) * (pollsBeforeRetry + 1)
  end.

(** Every run of [m] relates the world it starts from to the world it
    leaves by [R]. *)
Definition keeps (R : World -> World -> Prop) {A} (m : M A) : Prop :=
  forall w, R w (snd (m w)).

(** The labelled log lines are those of the start. *)
Definition same_labeled_logs (w w' : World) : Prop :=
  labeled_logs w' = labeled_logs w.

(** Telemetry events and sleeps in the trace. *)
Definition is_track (e : Event) : bool :=
  match e with TrackGA4 _ _ => true | _ => false end.

Definition is_sleep (e : Event) : bool :=
  match e with SetTimeout _ => true | _ => false end.

Definition tracks (w : World) : nat := count is_track (trace w).
Definition sleeps (w : World) : nat := count is_sleep (trace w).

(** The computation returned rather than threw. *)
Definition returned {A} (o : Outcome A) : bool :=
  match o with Return _ => true | Throw _ => false end.

(** A computation that prints no labelled line. *)
Abbreviation quiet := (keeps same_labeled_logs).

(** * Properties *)

Ltac mrun :=
  unfold mbind, M_bind, bind, mret, M_ret, ret, throw, try_catch, perform in *.

Section Recursion.
Context `{Platform}.

Lemma budget_enabling (er : nat) :
  Nat.ltb 1 er = false ->
  S (budget (Polling er 0)) <= budget (Enabling er).
Proof.
  intros Hlt. apply Nat.ltb_ge in Hlt.
  unfold budget, pollsBeforeRetry. lia.
Qed.

Lemma budget_exhausted (er pr : nat) :
  Nat.ltb pollsBeforeRetry pr = true ->
  S (budget (Enabling (er + 1))) <= budget (Polling er pr).
Proof.
  intros Hlt. apply Nat.ltb_lt in Hlt.
  unfold budget, pollsBeforeRetry in *. lia.
Qed.

Lemma budget_polling (er pr : nat) :
  Nat.ltb pollsBeforeRetry pr = false ->
  S (budget (Polling er (pr + 1))) <= budget (Polling er pr).
Proof.
  intros Hlt. apply Nat.ltb_ge in Hlt.
  unfold budget, pollsBeforeRetry in *. lia.
Qed.

(** Any fuel at or above the budget gives the same computation: the
    [O] branch of [retry] is never reached from [pollCheckEnabled] or
    [enableApiWithRetries]. *)
Lemma retry_fuel (projectId apiName prefix : string) (silent : bool) :
  forall (n m : nat) (f : Frame),
    budget f <= n -> budget f <= m ->
    retry n projectId apiName prefix silent f
    = retry m projectId apiName prefix silent f.
Proof.
  induction n as [|n IH]; intros m f Hn Hm.
  - destruct f; unfold budget, pollsBeforeRetry in Hn; lia.
  - destruct m as [|m]; [destruct f; unfold budget, pollsBeforeRetry in Hm; lia|].
    destruct f as [er pr|er]; cbn [retry].
    + destruct (Nat.ltb pollsBeforeRetry pr) eqn:Hpr.
      * pose proof (budget_exhausted er pr Hpr).
        apply IH; lia.
      * pose proof (budget_polling er pr Hpr).
        rewrite (IH m (Polling er (pr + 1))) by lia.
        reflexivity.
    + destruct (Nat.ltb 1 er) eqn:Her; [reflexivity|].
      pose proof (budget_enabling er Her).
      rewrite (IH m (Polling er 0)) by lia.
      reflexivity.
Qed.

(** The body of [enableApiWithRetries], as the source has it. *)
Lemma enableApiWithRetries_eq (projectId apiName prefix : string)
    (silent : bool) (enablementRetries : nat) :
  enableApiWithRetries projectId apiName prefix silent enablementRetries
  = if Nat.ltb 1 enablementRetries then
      throw (FirebaseError (timeout_message apiName))
    else
      enable projectId apiName;;
      pollCheckEnabled projectId apiName prefix silent enablementRetries 0.
Proof.
  unfold enableApiWithRetries, pollCheckEnabled.
  destruct (Nat.ltb 1 enablementRetries) eqn:Her.
  - unfold budget. cbn [Nat.add retry]. rewrite Her. reflexivity.
  - pose proof (budget_enabling enablementRetries Her) as Hb.
    destruct (budget (Enabling enablementRetries)) as [|n] eqn:Hn; [lia|].
    cbn [retry]. rewrite Her.
    rewrite (retry_fuel _ _ _ _ n (budget (Polling enablementRetries 0))) by lia.
    reflexivity.
Qed.

(** The body of [pollCheckEnabled], as the source has it. *)
Lemma pollCheckEnabled_eq (projectId apiName prefix : string) (silent : bool)
    (enablementRetries pollRetries : nat) :
  pollCheckEnabled projectId apiName prefix silent enablementRetries pollRetries
  = if Nat.ltb pollsBeforeRetry pollRetries then
      enableApiWithRetries projectId apiName prefix silent (enablementRetries + 1)
    else
      perform (SetTimeout pollInterval);;
      isEnabled ← check projectId apiName prefix silent;
      if (isEnabled : bool) then
        perform (TrackGA4 "api_enabled" apiName);;
        mret tt
      else
        (if negb silent
         then perform (LogLabeledBullet prefix
                         ("waiting for API " +:+ bold apiName
                          +:+ " to activate..."))
         else mret tt);;
        pollCheckEnabled projectId apiName prefix silent
          enablementRetries (pollRetries + 1).
Proof.
  unfold enableApiWithRetries, pollCheckEnabled.
  destruct (Nat.ltb pollsBeforeRetry pollRetries) eqn:Hpr.
  - pose proof (budget_exhausted enablementRetries pollRetries Hpr) as Hb.
    destruct (budget (Polling enablementRetries pollRetries)) as [|n] eqn:Hn; [lia|].
    cbn [retry]. rewrite Hpr.
    apply retry_fuel; lia.
  - pose proof (budget_polling enablementRetries pollRetries Hpr) as Hb.
    destruct (budget (Polling enablementRetries pollRetries)) as [|n] eqn:Hn; [lia|].
    cbn [retry]. rewrite Hpr.
    rewrite (retry_fuel _ _ _ _ n
               (budget (Polling enablementRetries (pollRetries + 1)))) by lia.
    reflexivity.
Qed.

End Recursion.

Section Check.
Context `{Platform}.

Lemma check_of_apiName (projectId apiUri prefix apiName : string)
    (silent : bool) (w : World) :
  apiNameOf apiUri = Some apiName ->
  check projectId apiUri prefix silent w
  = (hit ← checkAPIEnablementCache projectId apiName;
     if (hit : bool) then mret true
     else
       state ← apiClient_get (status_path projectId apiName) (quota_user projectId);
       let isEnabled := String.eqb state "ENABLED" in
       (if isEnabled && negb silent
        then perform (LogLabeledSuccess prefix
                        ("required API " +:+ bold apiName +:+ " is enabled"))
        else mret tt);;
       (if isEnabled then cacheEnabledAPI projectId apiName else mret tt);;
       mret isEnabled) w.
Proof.
  unfold apiNameOf, check, new_URL_hostname. intros Hname.
  destruct (String.prefix "http" apiUri).
  - rewrite Hname. reflexivity.
  - injection Hname as ->. reflexivity.
Qed.

Lemma cacheEnabledAPI_run (projectId apiName : string) (w : World) :
  exists cache : Cache,
    cacheEnabledAPI projectId apiName w
    = (Return tt,
       {| store := Some cache; requests := requests w;
          trace := ConfigSet API_ENABLEMENT_CACHE_KEY cache
                   :: ConfigGet API_ENABLEMENT_CACHE_KEY :: trace w |})
    /\ (forall p a, cache_lookup (Some cache) p a
                    = if decide (p = projectId /\ a = apiName) then Some true
                      else cache_lookup (store w) p a).
Proof.
  unfold cacheEnabledAPI, configstore_get, configstore_set. mrun. cbn.
  eexists. split; [reflexivity|].
  intros p a.
  remember (cache_lookup (store w) p a) as old eqn:Hold.
  unfold cache_lookup. cbn.
  set (c0 := default ∅ (store w)).
  assert (Hc0 : forall q, (c0 !! q) ≫= (fun inner => inner !! a)
                          = cache_lookup (store w) q a).
  { intros q. unfold cache_lookup, c0. destruct (store w); cbn; [reflexivity|].
    rewrite lookup_empty. reflexivity. }
  destruct (decide (p = projectId /\ a = apiName)) as [[-> ->]|Hne].
  - destruct (c0 !! projectId) eqn:Hp.
    + rewrite lookup_alter_eq, Hp. cbn. apply lookup_insert_eq.
    + rewrite lookup_alter_eq, lookup_insert_eq. cbn. apply lookup_insert_eq.
  - rewrite Hold, <- Hc0.
    destruct (decide (p = projectId)) as [->|Hp].
    + assert (a <> apiName) by (intros ->; apply Hne; split; reflexivity).
      destruct (c0 !! projectId) eqn:Hq.
      * rewrite lookup_alter_eq, Hq. cbn. apply lookup_insert_ne. congruence.
      * rewrite lookup_alter_eq, lookup_insert_eq. cbn.
        rewrite lookup_insert_ne by congruence. apply lookup_empty.
    + destruct (c0 !! projectId) eqn:Hq.
      * rewrite lookup_alter_ne by congruence. reflexivity.
      * rewrite lookup_alter_ne, lookup_insert_ne by congruence. reflexivity.
Qed.

Lemma checkAPIEnablementCache_run (projectId apiName : string) (w : World) :
  checkAPIEnablementCache projectId apiName w
  = (Return (default false (cache_lookup (store w) projectId apiName)),
     emit (ConfigGet API_ENABLEMENT_CACHE_KEY) w).
Proof. reflexivity. Qed.

(** What [check] does once the service name is known, by cases on the cache
    and on the reply to the status query. *)
Lemma check_run (projectId apiUri prefix apiName : string) (silent : bool)
    (w : World) :
  apiNameOf apiUri = Some apiName ->
  let w1 := emit (ConfigGet API_ENABLEMENT_CACHE_KEY) w in
  let w2 := sent (HttpGet (status_path projectId apiName) (quota_user projectId)) w1 in
  check projectId apiUri prefix silent w
  = if default false (cache_lookup (store w) projectId apiName) then (Return true, w1)
    else match get_reply (requests w) (status_path projectId apiName) with
         | inl err => (Throw err, w2)
         | inr state =>
             if String.eqb state "ENABLED" then
               (Return true,
                snd (cacheEnabledAPI projectId apiName
                       (if silent then w2
                        else emit (LogLabeledSuccess prefix
                                     ("required API " +:+ bold apiName
                                      +:+ " is enabled")) w2)))
             else (Return false, w2)
         end.
Proof.
  intros Hname w1 w2. rewrite (check_of_apiName _ _ _ _ _ _ Hname).
  mrun. rewrite checkAPIEnablementCache_run. fold w1.
  destruct (default false (cache_lookup (store w) projectId apiName));
    [reflexivity|].
  unfold apiClient_get. cbn [requests w1 emit].
  destruct (get_reply (requests w) (status_path projectId apiName))
    as [err|state]; [reflexivity|].
  fold w1. fold w2.
  destruct (String.eqb state "ENABLED"); cbn [andb].
  - destruct silent; cbn [negb];
      match goal with
      | |- context [cacheEnabledAPI ?p ?a ?w0] =>
          destruct (cacheEnabledAPI_run p a w0) as (c & -> & _)
      end; reflexivity.
  - reflexivity.
Qed.

(** C3, as the code has it.  The pair is the project id and the service
    name [check] derives from its argument (the argument itself, or the
    hostname of a URL that parses).  With a cached enabled entry for the
    pair, [check] returns [true] and its only effect is the cache read: no
    request is sent.  Without one, for a project id and a service name that
    are not inherited names, and when the status query is answered, [check]
    returns [true] exactly when the [state] field of the answer is the
    string [ENABLED]; in that case it writes the cache entry (one
    configstore write, after which the pair is cached), and otherwise it
    writes nothing. *)
Theorem check_cache_hit_or_status_query
    (projectId apiUri prefix apiName : string) (silent : bool) (w : World) :
  apiNameOf apiUri = Some apiName ->
  (cache_lookup (store w) projectId apiName = Some true ->
   check projectId apiUri prefix silent w
   = (Return true, emit (ConfigGet API_ENABLEMENT_CACHE_KEY) w)
   /\ requests (snd (check projectId apiUri prefix silent w)) = requests w
   /\ gets (snd (check projectId apiUri prefix silent w)) = gets w
   /\ posts (snd (check projectId apiUri prefix silent w)) = posts w)
  /\ (cache_lookup (store w) projectId apiName <> Some true ->
      inherited projectId = false ->
      inherited apiName = false ->
      forall state : string,
        get_reply (requests w) (status_path projectId apiName) = inr state ->
        let r := check projectId apiUri prefix silent w in
        fst r = Return (String.eqb state "ENABLED")
        /\ (fst r = Return true <-> state = "ENABLED")
        /\ gets (snd r) = S (gets w)
        /\ (state = "ENABLED" ->
            writes (snd r) = S (writes w)
            /\ cache_lookup (store (snd r)) projectId apiName = Some true)
        /\ (state <> "ENABLED" ->
            writes (snd r) = writes w /\ store (snd r) = store w)).
Proof.
  intros Hname. pose proof (check_run projectId apiUri prefix apiName silent w Hname) as Hrun.
  cbn zeta in Hrun. split.
  - intros Hhit. rewrite Hhit in Hrun. cbn [default] in Hrun.
    rewrite Hrun. repeat split; reflexivity.
  - intros Hmiss _ _ state Hreply r. subst r.
    assert (Hd : default false (cache_lookup (store w) projectId apiName) = false).
    { destruct (cache_lookup (store w) projectId apiName) as [[|]|];
        [congruence|reflexivity|reflexivity]. }
    rewrite Hd, Hreply in Hrun. rewrite Hrun. clear Hrun.
    destruct (String.eqb state "ENABLED") eqn:Hst.
    + apply String.eqb_eq in Hst.
      match goal with
      | |- context [cacheEnabledAPI ?p ?a ?w0] =>
          destruct (cacheEnabledAPI_run p a w0) as (c & Hc & Hlook)
      end.
      rewrite Hc. cbn [fst snd].
      split; [reflexivity|]. split; [tauto|].
      split; [destruct silent; reflexivity|].
      split; [|congruence].
      intros _. split; [destruct silent; reflexivity|].
      cbn [store]. rewrite Hlook.
      destruct (decide (projectId = projectId /\ apiName = apiName)) as [_|Hn];
        [reflexivity|exfalso; apply Hn; split; reflexivity].
    + apply String.eqb_neq in Hst. cbn [fst snd].
      split; [reflexivity|]. split; [split; congruence|].
      split; [reflexivity|]. split; [congruence|].
      intros _. split; reflexivity.
Qed.

(** C10. An identifier that starts with [http] and that [new URL] rejects
    makes [check] and [ensure] throw the URL parser's error at once: the
    world is untouched, so no cache read, request or log line precedes the
    error, and the string is not tried as a bare hostname. *)
Theorem unparseable_http_identifier_throws
    (projectId apiUri prefix : string) (silent : bool) (w : World) :
  String.prefix "http" apiUri = true ->
  URL_hostname apiUri = None ->
  check projectId apiUri prefix silent w = (Throw InvalidURL, w)
  /\ ensure projectId apiUri prefix silent w = (Throw InvalidURL, w).
Proof.
  intros Hhttp Hurl. unfold check, ensure, new_URL_hostname.
  rewrite Hhttp, Hurl. split; reflexivity.
Qed.

(** C5, as the code has it.  When the identifier is a URL that [new URL]
    accepts and whose hostname does not itself start with [http], [check]
    and [ensure] called with the URL and called with the hostname are the
    same computation: same outcome, same cache, same requests, same log
    lines. *)
Theorem url_and_hostname_agree
    (projectId apiUri hostname prefix : string) (silent : bool) (w : World) :
  String.prefix "http" apiUri = true ->
  URL_hostname apiUri = Some hostname ->
  String.prefix "http" hostname = false ->
  check projectId apiUri prefix silent w = check projectId hostname prefix silent w
  /\ ensure projectId apiUri prefix silent w
     = ensure projectId hostname prefix silent w.
Proof.
  intros Hhttp Hurl Hbare. unfold check, ensure, new_URL_hostname.
  rewrite Hhttp, Hurl, Hbare. split; reflexivity.
Qed.

End Check.

(** ** Strings *)

Section Strings.

Lemma append_cons (c : ascii) (s t : string) : String c s +:+ t = String c (s +:+ t).
Proof. reflexivity. Qed.

Lemma append_nil_l (s : string) : "" +:+ s = s.
Proof. reflexivity. Qed.

Lemma append_nil_r (s : string) : s +:+ "" = s.
Proof.
  induction s as [|c s IH]; [reflexivity|].
  now rewrite append_cons, IH.
Qed.

Lemma append_assoc (s t u : string) : (s +:+ t) +:+ u = s +:+ t +:+ u.
Proof.
  induction s as [|c s IH]; [reflexivity|].
  now rewrite !append_cons, IH.
Qed.

Lemma includes_refl (s : string) : includes s s.
Proof. exists "", "". now rewrite append_nil_l, append_nil_r. Qed.

Lemma includes_app_r (s t sub : string) : includes t sub -> includes (s +:+ t) sub.
Proof.
  intros (b & a & ->). exists (s +:+ b), a. now rewrite append_assoc.
Qed.

Lemma includes_app_l (s t sub : string) : includes s sub -> includes (s +:+ t) sub.
Proof.
  intros (b & a & ->). exists b, (a +:+ t). now rewrite !append_assoc.
Qed.

Lemma includes_cons (c : ascii) (s sub : string) :
  includes s sub -> includes (String c s) sub.
Proof. intros (b & a & ->). exists (String c b), a. reflexivity. Qed.

Lemma includes_trans (s t u : string) : includes s t -> includes t u -> includes s u.
Proof.
  intros (b & a & ->) Htu. apply includes_app_r, includes_app_l, Htu.
Qed.

Lemma strip_prefix_sound (lit s rest : string) :
  strip_prefix lit s = Some rest -> s = lit +:+ rest.
Proof.
  revert s. induction lit as [|a lit IH]; intros s; cbn.
  - now intros [= ->].
  - destruct s as [|b s]; [discriminate|].
    destruct (Ascii.eqb a b) eqn:Hab; [|discriminate].
    apply Ascii.eqb_eq in Hab as ->. intros Hs.
    now rewrite append_cons, <- (IH _ Hs).
Qed.

Lemma strip_prefix_app (lit rest : string) :
  strip_prefix lit (lit +:+ rest) = Some rest.
Proof.
  induction lit as [|a lit IH]; [reflexivity|].
  rewrite append_cons. cbn [strip_prefix]. now rewrite Ascii.eqb_refl.
Qed.

Lemma span_sound (p : ascii -> bool) (s run rest : string) :
  span p s = (run, rest) -> s = run +:+ rest /\ all_chars p run = true.
Proof.
  revert run rest. induction s as [|c s IH]; intros run rest; cbn.
  - intros [= <- <-]. split; reflexivity.
  - destruct (p c) eqn:Hc.
    + destruct (span p s) as [run' rest'] eqn:Hs. intros [= <- <-].
      destruct (IH _ _ eq_refl) as [-> Hall].
      cbn [all_chars]. rewrite Hc. split; [reflexivity|exact Hall].
    + intros [= <- <-]. split; reflexivity.
Qed.

Lemma span_app (p : ascii -> bool) (run : string) (c : ascii) (rest : string) :
  all_chars p run = true -> p c = false ->
  span p (run +:+ String c rest) = (run, String c rest).
Proof.
  intros Hall Hc. induction run as [|d run IH].
  - rewrite append_nil_l. cbn [span]. now rewrite Hc.
  - cbn [all_chars] in Hall. apply andb_true_iff in Hall as [Hd Hall].
    rewrite append_cons. cbn [span]. now rewrite Hd, (IH Hall).
Qed.

Lemma match_here_sound (s X : string) :
  match_here s = Some X ->
  exists after, s = permission_denied_literal +:+ X +:+ "]" +:+ after
                /\ X <> "" /\ all_chars service_char X = true.
Proof.
  unfold match_here.
  destruct (strip_prefix permission_denied_literal s) as [rest|] eqn:Hlit;
    [|discriminate].
  apply strip_prefix_sound in Hlit.
  destruct (span service_char rest) as [run rest'] eqn:Hspan.
  apply span_sound in Hspan as [-> Hall].
  destruct run as [|c run]; [discriminate|].
  destruct rest' as [|b after]; [discriminate|].
  destruct (Ascii.eqb b "]") eqn:Hb.
  - apply Ascii.eqb_eq in Hb as ->. intros [= <-].
    exists after. split; [exact Hlit|]. split; [discriminate|exact Hall].
  - intros Hm. exfalso. revert Hm.
    destruct b as [[] [] [] [] [] [] [] []]; try discriminate.
Qed.

Lemma match_here_app (X after : string) :
  X <> "" -> all_chars service_char X = true ->
  match_here (permission_denied_literal +:+ X +:+ "]" +:+ after) = Some X.
Proof.
  intros Hne Hall. unfold match_here. rewrite strip_prefix_app.
  change ("]" +:+ after) with (String "]" after).
  rewrite (span_app service_char X "]" after Hall eq_refl).
  destruct X; [congruence|reflexivity].
Qed.

(** A result of [exec] is a service name the message denies. *)
Lemma exec_sound (msg X : string) :
  apiPermissionDeniedRegex_exec msg = Some X -> names_denied_service msg X.
Proof.
  induction msg as [|c msg IH].
  - cbn. discriminate.
  - cbn [apiPermissionDeniedRegex_exec].
    destruct (match_here (String c msg)) as [Y|] eqn:Hm.
    + intros [= ->]. apply match_here_sound in Hm as (after & Hs & Hne & Hall).
      split; [exact Hne|]. split; [exact Hall|].
      exists "", after. rewrite Hs, append_nil_l. now rewrite !append_assoc.
    + intros Hx. destruct (IH Hx) as (Hne & Hall & Hin).
      split; [exact Hne|]. split; [exact Hall|]. now apply includes_cons.
Qed.

(** [exec] finds a match whenever the message denies some service name. *)
Lemma exec_complete (msg X : string) :
  names_denied_service msg X ->
  exists Y, apiPermissionDeniedRegex_exec msg = Some Y.
Proof.
  intros (Hne & Hall & before & after & ->).
  induction before as [|c before IH].
  - rewrite append_nil_l, !append_assoc.
    pose proof (match_here_app X after Hne Hall) as Hm.
    exists X. destruct X as [|x X]; [congruence|].
    destruct (permission_denied_literal +:+ String x X +:+ "]" +:+ after) eqn:Hs;
      cbn [apiPermissionDeniedRegex_exec]; now rewrite Hm.
  - destruct IH as [Y HY]. rewrite append_cons.
    cbn [apiPermissionDeniedRegex_exec]. rewrite HY.
    destruct (match_here _) as [Z|]; [now exists Z|now exists Y].
Qed.

(** The regex fails exactly on the messages that deny no service name. *)
Lemma exec_none_iff (msg : string) :
  apiPermissionDeniedRegex_exec msg = None
  <-> forall X, ~ names_denied_service msg X.
Proof.
  split.
  - intros Hnone X HX. destruct (exec_complete _ _ HX) as [Y HY]. congruence.
  - intros Hno. destruct (apiPermissionDeniedRegex_exec msg) as [X|] eqn:Hx;
      [|reflexivity].
    exfalso. exact (Hno X (exec_sound _ _ Hx)).
Qed.

End Strings.

(** ** The enable endpoint's refusals *)

Section Enable.
Context `{Platform}.

(** What [enable] does, by cases on the reply to the enable request. *)
Lemma enable_run (projectId apiName : string) (w : World) :
  let w1 := sent (HttpPost (enable_path projectId apiName) (quota_user projectId)) w in
  enable projectId apiName w
  = match post_reply (requests w) (enable_path projectId apiName) with
    | None => cacheEnabledAPI projectId apiName w1
    | Some err =>
        if isBillingError err then
          (Throw (FirebaseError (billing_message projectId apiName)), w1)
        else if isPermissionError err then
          match apiPermissionDeniedRegex_exec (message err) with
          | Some serviceUrl =>
              (Throw (set_message err (permission_message serviceUrl projectId)), w1)
          | None => (Throw err, w1)
          end
        else (Throw err, w1)
    end.
Proof.
  intros w1. unfold enable, apiClient_post. mrun.
  destruct (post_reply (requests w) (enable_path projectId apiName)) as [err|].
  - destruct (isBillingError err); [reflexivity|].
    destruct (isPermissionError err); [|reflexivity].
    destruct (apiPermissionDeniedRegex_exec (message err)); reflexivity.
  - fold w1. destruct (cacheEnabledAPI_run projectId apiName w1) as (c & -> & _).
    reflexivity.
Qed.

(** C7. When the enable endpoint refuses with a billing restriction,
    [enable] throws a new [FirebaseError]; its message contains the upgrade
    URL [https://console.firebase.google.com/project/<id>/usage/details]
    written with the project id, the upgrade URL contains the project id,
    and so the message contains the project id. *)
Theorem enable_billing_error (projectId apiName : string) (w : World)
    (err : JsError) :
  post_reply (requests w) (enable_path projectId apiName) = Some err ->
  isBillingError err = true ->
  exists msg : string,
    fst (enable projectId apiName w)
    = Throw {| name := "FirebaseError"; message := msg; status := None |}
    /\ msg = billing_message projectId apiName
    /\ includes msg
         ("https://console.firebase.google.com/project/" +:+ projectId
          +:+ "/usage/details")
    /\ includes
         ("https://console.firebase.google.com/project/" +:+ projectId
          +:+ "/usage/details") projectId
    /\ includes msg projectId.
Proof.
  intros Hreply Hbilling. exists (billing_message projectId apiName).
  rewrite enable_run, Hreply, Hbilling.
  change ("https://console.firebase.google.com/project/" +:+ projectId
          +:+ "/usage/details") with (upgrade_url projectId).
  assert (Hurl : includes (billing_message projectId apiName) (upgrade_url projectId)).
  { unfold billing_message. do 7 apply includes_app_r. apply includes_refl. }
  assert (Hid : includes (upgrade_url projectId) projectId).
  { unfold upgrade_url. apply includes_app_r, includes_app_l, includes_refl. }
  repeat split; try assumption.
  eapply includes_trans; eassumption.
Qed.

(** C4, as the code has it.  When the enable endpoint refuses with
    [PERMISSION_DENIED] (and the refusal is not a billing restriction, which
    is tested first):
    - if the regular expression matches the message, with [X] the service
      name it captures (a non-empty run of letters and dots between the
      brackets), [enable] re-throws the same error, name and status kept,
      with only its message replaced; the new message contains the console
      URL [https://console.cloud.google.com/apis/library/X?project=<id>],
      and [X] is a name the original message denies;
    - if the regular expression does not match, [enable] re-throws the
      error as it came. *)
Theorem enable_permission_denied (projectId apiName : string) (w : World)
    (err : JsError) :
  post_reply (requests w) (enable_path projectId apiName) = Some err ->
  isBillingError err = false ->
  status err = Some "PERMISSION_DENIED" ->
  (forall X : string,
     apiPermissionDeniedRegex_exec (message err) = Some X ->
     exists err' : JsError,
       fst (enable projectId apiName w) = Throw err'
       /\ name err' = name err
       /\ status err' = status err
       /\ message err' = permission_message X projectId
       /\ includes (message err')
            ("https://console.cloud.google.com/apis/library/" +:+ X
             +:+ "?project=" +:+ projectId)
       /\ names_denied_service (message err) X)
  /\ (apiPermissionDeniedRegex_exec (message err) = None ->
      fst (enable projectId apiName w) = Throw err).
Proof.
  intros Hreply Hbilling Hstatus.
  assert (Hperm : isPermissionError err = true).
  { unfold isPermissionError. now apply bool_decide_eq_true. }
  rewrite enable_run, Hreply, Hbilling, Hperm. split.
  - intros X HX. rewrite HX.
    exists (set_message err (permission_message X projectId)).
    split; [reflexivity|]. split; [reflexivity|]. split; [reflexivity|].
    split; [reflexivity|]. split.
    + cbn [message set_message]. unfold permission_message.
      do 9 apply includes_app_r. apply includes_refl.
    + now apply exec_sound.
  - intros ->. reflexivity.
Qed.

End Enable.

(** ** ensure and bestEffortEnsure *)

Section Ensure.
Context `{Platform}.

Lemma posts_cacheEnabledAPI (projectId apiName : string) (w : World) :
  posts (snd (cacheEnabledAPI projectId apiName w)) = posts w.
Proof.
  destruct (cacheEnabledAPI_run projectId apiName w) as (c & -> & _). reflexivity.
Qed.

(** [check] never sends an enable request. *)
Lemma check_posts (projectId apiUri prefix : string) (silent : bool) (w : World) :
  posts (snd (check projectId apiUri prefix silent w)) = posts w.
Proof.
  destruct (apiNameOf apiUri) as [apiName|] eqn:Hname.
  - rewrite (check_run _ _ _ _ _ _ Hname). cbn zeta.
    destruct (default false _); [reflexivity|].
    destruct (get_reply _ _) as [err|state]; [reflexivity|].
    destruct (String.eqb state "ENABLED"); [|reflexivity].
    cbn [snd]. rewrite posts_cacheEnabledAPI. destruct silent; reflexivity.
  - unfold apiNameOf in Hname. unfold check, new_URL_hostname.
    destruct (String.prefix "http" apiUri); [|discriminate].
    rewrite Hname. reflexivity.
Qed.

(** C8. If [check], called as [ensure] calls it, reports the service
    enabled (from the cache or from a status query answering [ENABLED]),
    then [ensure] returns normally in the world [check] left, and no request
    has been sent to the enable endpoint. *)
Theorem ensure_enabled_sends_no_enable_request
    (projectId apiUri prefix hostname : string) (silent : bool) (w w' : World) :
  apiNameOf apiUri = Some hostname ->
  check projectId hostname prefix silent (announced prefix hostname silent w)
  = (Return true, w') ->
  ensure projectId apiUri prefix silent w = (Return tt, w')
  /\ posts w' = posts w.
Proof.
  intros Hname Hcheck. split.
  - unfold ensure, new_URL_hostname. unfold apiNameOf in Hname.
    unfold announced in Hcheck.
    destruct (String.prefix "http" apiUri).
    + rewrite Hname. mrun. destruct silent; cbn [negb]; now rewrite Hcheck.
    + injection Hname as ->. mrun. destruct silent; cbn [negb]; now rewrite Hcheck.
  - pose proof (check_posts projectId hostname prefix silent
                  (announced prefix hostname silent w)) as Hp.
    rewrite Hcheck in Hp. cbn [snd] in Hp. rewrite Hp.
    unfold announced. destruct silent; reflexivity.
Qed.

(** C6. [bestEffortEnsure] always returns normally.  When [ensure] returns,
    nothing is added; when [ensure] throws, whatever the error, the only
    addition is one debug-level log line. *)
Theorem bestEffortEnsure_never_throws
    (projectId apiUri prefix : string) (silent : bool) (w : World) :
  fst (bestEffortEnsure projectId apiUri prefix silent w) = Return tt
  /\ match ensure projectId apiUri prefix silent w with
     | (Return _, w') =>
         snd (bestEffortEnsure projectId apiUri prefix silent w) = w'
     | (Throw _, w') =>
         exists line : string,
           snd (bestEffortEnsure projectId apiUri prefix silent w)
           = emit (LoggerDebug line) w'
     end.
Proof.
  unfold bestEffortEnsure. mrun.
  destruct (ensure projectId apiUri prefix silent w) as [[[]|err] w'].
  - split; reflexivity.
  - split; [reflexivity|]. eexists. reflexivity.
Qed.

End Ensure.

(** ** The cache only grows *)

Section CacheGrows.
Context `{Platform}.

Lemma cache_grows_refl (c : option Cache) : cache_grows c c.
Proof. intros p a. now left. Qed.

Lemma cache_grows_trans (c1 c2 c3 : option Cache) :
  cache_grows c1 c2 -> cache_grows c2 c3 -> cache_grows c1 c3.
Proof.
  intros H12 H23 p a.
  destruct (H23 p a) as [-> | ->]; [apply H12|now right].
Qed.

Lemma store_after_app (c0 : option Cache) (e2 e1 : list Event) :
  store_after c0 (e2 ++ e1)%list = store_after (store_after c0 e1) e2.
Proof.
  induction e2 as [|e e2 IH]; [reflexivity|].
  destruct e; cbn [app store_after]; try exact IH; reflexivity.
Qed.

Lemma writes_grow_app (c0 : option Cache) (e2 e1 : list Event) :
  writes_grow c0 e1 -> writes_grow (store_after c0 e1) e2 ->
  writes_grow c0 (e2 ++ e1)%list.
Proof.
  intros H1. induction e2 as [|e e2 IH]; [intros _; exact H1|].
  destruct e; cbn [app writes_grow]; try exact IH.
  intros (Hk & Hg & H2). rewrite store_after_app. auto.
Qed.

Lemma writes_grow_final (c0 : option Cache) (evs : list Event) :
  writes_grow c0 evs -> cache_grows c0 (store_after c0 evs).
Proof.
  induction evs as [|e evs IH]; [intros _; apply cache_grows_refl|].
  destruct e; cbn [writes_grow store_after]; try exact IH.
  intros (_ & Hg & Hw). eapply cache_grows_trans; [exact (IH Hw)|exact Hg].
Qed.

Lemma extends_refl (w : World) : extends w w.
Proof. exists []. repeat split. Qed.

Lemma extends_trans (w1 w2 w3 : World) :
  extends w1 w2 -> extends w2 w3 -> extends w1 w3.
Proof.
  intros (e1 & Ht1 & Hs1 & Hw1) (e2 & Ht2 & Hs2 & Hw2).
  exists (e2 ++ e1)%list. split; [|split].
  - rewrite Ht2, Ht1. apply List.app_assoc.
  - rewrite Hs2, Hs1. symmetry. apply store_after_app.
  - apply writes_grow_app; [exact Hw1|]. now rewrite <- Hs1.
Qed.

Lemma extends_cache_grows (w w' : World) :
  extends w w' -> cache_grows (store w) (store w').
Proof.
  intros (evs & _ & -> & Hw). now apply writes_grow_final.
Qed.

Lemma growing_ret {A} (a : A) : growing (mret a).
Proof. intros w. apply extends_refl. Qed.

Lemma growing_throw {A} (e : JsError) : growing (@throw A e).
Proof. intros w. apply extends_refl. Qed.

Lemma growing_bind {A B} (m : M A) (k : A -> M B) :
  growing m -> (forall a, growing (k a)) -> growing (m ≫= k).
Proof.
  intros Hm Hk w. mrun. specialize (Hm w).
  destruct (m w) as [[a|e] w1]; cbn [snd] in *; [|exact Hm].
  eapply extends_trans; [exact Hm|apply Hk].
Qed.

Lemma growing_try_catch {A} (body : M A) (handler : JsError -> M A) :
  growing body -> (forall e, growing (handler e)) ->
  growing (try_catch body handler).
Proof.
  intros Hb Hh w. unfold try_catch. specialize (Hb w).
  destruct (body w) as [[a|e] w1]; cbn [snd] in *; [exact Hb|].
  eapply extends_trans; [exact Hb|apply Hh].
Qed.

Lemma growing_perform (e : Event) : is_config_set e = false -> growing (perform e).
Proof.
  intros He w. exists [e]. destruct e; try discriminate; cbn; repeat split.
Qed.

Lemma growing_if {A} (b : bool) (m1 m2 : M A) :
  growing m1 -> growing m2 -> growing (if b then m1 else m2).
Proof. now destruct b. Qed.

Lemma growing_apiClient_get (path quotaUser : string) :
  growing (apiClient_get path quotaUser).
Proof.
  intros w. unfold apiClient_get.
  exists [HttpGet path quotaUser].
  destruct (get_reply (requests w) path); cbn; repeat split.
Qed.

Lemma growing_apiClient_post (path quotaUser : string) :
  growing (apiClient_post path quotaUser).
Proof.
  intros w. unfold apiClient_post.
  exists [HttpPost path quotaUser].
  destruct (post_reply (requests w) path); cbn; repeat split.
Qed.

Lemma growing_checkAPIEnablementCache (projectId apiName : string) :
  growing (checkAPIEnablementCache projectId apiName).
Proof.
  intros w. rewrite checkAPIEnablementCache_run.
  exists [ConfigGet API_ENABLEMENT_CACHE_KEY]. cbn. repeat split.
Qed.

(** The one place where the configstore is written: the entry of the pair
    becomes [true], every other entry is kept. *)
Lemma growing_cacheEnabledAPI (projectId apiName : string) :
  growing (cacheEnabledAPI projectId apiName).
Proof.
  intros w. destruct (cacheEnabledAPI_run projectId apiName w) as (c & -> & Hlook).
  exists [ConfigSet API_ENABLEMENT_CACHE_KEY c; ConfigGet API_ENABLEMENT_CACHE_KEY].
  cbn. repeat split.
  intros p a. rewrite Hlook.
  destruct (decide (p = projectId /\ a = apiName)); [now right|now left].
Qed.

Lemma growing_new_URL_hostname (apiUri : string) : growing (new_URL_hostname apiUri).
Proof.
  unfold new_URL_hostname.
  destruct (URL_hostname apiUri); [apply growing_ret|apply growing_throw].
Qed.

Create HintDb growing.

#[local] Hint Resolve growing_ret growing_throw growing_perform
  growing_apiClient_get growing_apiClient_post growing_checkAPIEnablementCache
  growing_cacheEnabledAPI growing_new_URL_hostname : growing.

Ltac growing_step :=
  first
    [ solve [auto with growing]
    | apply growing_bind; [|intros ?]
    | apply growing_try_catch; [|intros ?]
    | apply growing_if
    | match goal with
      | |- growing (match ?x with _ => _ end) => destruct x
      end ].

Lemma growing_check (projectId apiUri prefix : string) (silent : bool) :
  growing (check projectId apiUri prefix silent).
Proof. unfold check. repeat growing_step. Qed.

Lemma growing_enable (projectId apiName : string) :
  growing (enable projectId apiName).
Proof. unfold enable. repeat growing_step. Qed.

Lemma growing_retry (projectId apiName prefix : string) (silent : bool) :
  forall (fuel : nat) (f : Frame),
    growing (retry fuel projectId apiName prefix silent f).
Proof.
  induction fuel as [|fuel IH]; intros f; cbn [retry].
  - apply growing_ret.
  - destruct f as [er pr|er].
    + apply growing_if; [apply IH|].
      apply growing_bind; [now apply growing_perform|intros _].
      apply growing_bind; [apply growing_check|intros isEnabled].
      destruct isEnabled; repeat growing_step.
    + apply growing_if; [apply growing_throw|].
      apply growing_bind; [apply growing_enable|intros _]. apply IH.
Qed.

Lemma growing_ensure (projectId apiUri prefix : string) (silent : bool) :
  growing (ensure projectId apiUri prefix silent).
Proof.
  unfold ensure.
  apply growing_bind; [repeat growing_step|intros hostname].
  apply growing_bind; [repeat growing_step|intros _].
  apply growing_bind; [apply growing_check|intros isEnabled].
  destruct isEnabled; [apply growing_ret|].
  apply growing_bind; [repeat growing_step|intros _].
  apply growing_retry.
Qed.

(** C9. Whatever operation runs, from whatever world, and whether it
    returns or throws: every configstore write it made was under the
    enablement key and grew the cache it found (each pair kept its entry or
    got [true]); hence in the world it leaves, every pair has the entry it
    had or the entry [true].  No entry is deleted or set to [false]. *)
Theorem cache_only_gains_true_entries (op : Operation) (w : World) :
  (exists evs : list Event,
     trace (world_after op w) = (evs ++ trace w)%list
     /\ store (world_after op w) = store_after (store w) evs
     /\ writes_grow (store w) evs)
  /\ forall projectId apiName : string,
       cache_lookup (store (world_after op w)) projectId apiName
       = cache_lookup (store w) projectId apiName
       \/ cache_lookup (store (world_after op w)) projectId apiName = Some true.
Proof.
  assert (Hext : extends w (world_after op w)).
  { destruct op; cbn [world_after].
    - apply growing_check.
    - apply growing_enable.
    - apply growing_retry.
    - apply growing_retry.
    - apply growing_ensure.
    - unfold bestEffortEnsure. apply growing_try_catch;
        [apply growing_ensure|intros e; now apply growing_perform].
    - apply growing_checkAPIEnablementCache.
    - apply growing_cacheEnabledAPI. }
  split; [exact Hext|]. exact (extends_cache_grows _ _ Hext).
Qed.

End CacheGrows.

(** ** Enabling, polling and the cache *)

Section Polling.
Context `{Platform}.

Lemma apiNameOf_bare (apiName : string) :
  String.prefix "http" apiName = false -> apiNameOf apiName = Some apiName.
Proof. unfold apiNameOf. now intros ->. Qed.

(** A successful enable request is enough for [enable] to cache the pair:
    no status query is involved. *)
Lemma enable_caches_on_success (projectId apiName : string) (w : World) :
  post_reply (requests w) (enable_path projectId apiName) = None ->
  exists w' : World,
    enable projectId apiName w = (Return tt, w')
    /\ cache_lookup (store w') projectId apiName = Some true
    /\ posts w' = S (posts w) /\ gets w' = gets w
    /\ requests w' = S (requests w).
Proof.
  intros Hpost. rewrite enable_run, Hpost.
  match goal with
  | |- context [cacheEnabledAPI ?p ?a ?w0] =>
      destruct (cacheEnabledAPI_run p a w0) as (c & -> & Hlook)
  end.
  eexists. split; [reflexivity|]. cbn [store requests].
  split; [|repeat split].
  rewrite Hlook.
  destruct (decide (projectId = projectId /\ apiName = apiName)) as [_|Hn];
    [reflexivity|exfalso; apply Hn; split; reflexivity].
Qed.

(** With the pair cached, the first poll returns without a status query. *)
Lemma poll_answered_by_cache (projectId apiName prefix : string) (silent : bool)
    (enablementRetries : nat) (w : World) :
  String.prefix "http" apiName = false ->
  cache_lookup (store w) projectId apiName = Some true ->
  exists w' : World,
    pollCheckEnabled projectId apiName prefix silent enablementRetries 0 w
    = (Return tt, w')
    /\ posts w' = posts w /\ gets w' = gets w.
Proof.
  intros Hbare Hhit. rewrite pollCheckEnabled_eq. cbn [Nat.ltb Nat.leb pollsBeforeRetry].
  mrun.
  rewrite (check_run _ _ _ _ _ _ (apiNameOf_bare _ Hbare)). cbn zeta.
  cbn [store emit]. rewrite Hhit. cbn [default].
  eexists. split; [reflexivity|]. split; reflexivity.
Qed.

(** After a successful enable request, [enableApiWithRetries] is over: the
    first poll finds the entry [enable] has just written. *)
Lemma enable_then_poll_returns (projectId apiName prefix : string)
    (silent : bool) (w : World) :
  String.prefix "http" apiName = false ->
  post_reply (requests w) (enable_path projectId apiName) = None ->
  exists w' : World,
    enableApiWithRetries projectId apiName prefix silent 0 w = (Return tt, w')
    /\ posts w' = S (posts w) /\ gets w' = gets w.
Proof.
  intros Hbare Hpost. rewrite enableApiWithRetries_eq. cbn [Nat.ltb Nat.leb].
  destruct (enable_caches_on_success projectId apiName w Hpost)
    as (w1 & Hen & Hhit & Hposts & Hgets & _).
  destruct (poll_answered_by_cache projectId apiName prefix silent 0 w1 Hbare Hhit)
    as (w2 & Hpoll & Hposts2 & Hgets2).
  exists w2. mrun. rewrite Hen, Hpoll.
  split; [reflexivity|]. split; congruence.
Qed.

(** X10. The poll budget itself, for a project id and a service name that
    are not inherited names: as long as the pair is not cached and every
    status query answers something other than [ENABLED], a poll cycle
    entered with [k] polls left sends exactly [k] status queries; in the
    second cycle ([enablementRetries = 1]) the timeout error follows. *)
Lemma poll_cycle_times_out (projectId apiName prefix : string) (silent : bool) :
  String.prefix "http" apiName = false ->
  inherited projectId = false ->
  inherited apiName = false ->
  (forall n path, exists state, get_reply n path = inr state /\ state <> "ENABLED") ->
  forall (k : nat) (w : World),
    k <= pollsBeforeRetry + 1 ->
    cache_lookup (store w) projectId apiName <> Some true ->
    let r := pollCheckEnabled projectId apiName prefix silent 1
               (pollsBeforeRetry + 1 - k) w in
    fst r = Throw (FirebaseError (timeout_message apiName))
    /\ gets (snd r) = gets w + k
    /\ posts (snd r) = posts w
    /\ store (snd r) = store w.
Proof.
  intros Hbare _ _ Hreplies.
  induction k as [|k IH]; intros w Hk Hmiss r; subst r.
  - rewrite pollCheckEnabled_eq.
    replace (Nat.ltb pollsBeforeRetry (pollsBeforeRetry + 1 - 0)) with true
      by reflexivity.
    rewrite enableApiWithRetries_eq. cbn [Nat.add Nat.ltb Nat.leb].
    unfold throw. cbn [fst snd]. repeat split. lia.
  - rewrite pollCheckEnabled_eq.
    assert (Hlt : Nat.ltb pollsBeforeRetry (pollsBeforeRetry + 1 - S k) = false)
      by (apply Nat.ltb_ge; lia).
    rewrite Hlt. mrun.
    rewrite (check_run _ _ _ _ _ _ (apiNameOf_bare _ Hbare)). cbn zeta.
    cbn [store emit requests].
    assert (Hd : default false (cache_lookup (store w) projectId apiName) = false).
    { destruct (cache_lookup (store w) projectId apiName) as [[|]|];
        [congruence|reflexivity|reflexivity]. }
    rewrite Hd.
    destruct (Hreplies (requests w) (status_path projectId apiName))
      as (state & -> & Hstate).
    apply String.eqb_neq in Hstate. rewrite Hstate.
    replace (pollsBeforeRetry + 1 - S k + 1) with (pollsBeforeRetry + 1 - k) by lia.
    destruct silent; cbn [negb];
      match goal with
      | |- context [pollCheckEnabled _ _ _ _ _ _ ?w0] =>
          destruct (IH w0 ltac:(lia) Hmiss) as (Hr & Hg & Hp & Hs)
      end;
      (split; [exact Hr|]);
      (split; [rewrite Hg; unfold gets, count; cbn; lia|]);
      (split; [rewrite Hp; reflexivity|rewrite Hs; reflexivity]).
Qed.

End Polling.

(** ** Runs on the concrete platform *)

(** C1. The cache entry is written on other evidence than a status query
    answering [ENABLED].  Here every status query answers [DISABLED];
    [enable] alone caches the pair without any status query having been
    sent, and [ensure] returns with the pair cached after one status query
    (answered [DISABLED]) and one enable request. *)
Theorem cache_written_without_enabled_status :
  (let r := @enable never_enabled "p1" "foo.googleapis.com" fresh in
   fst r = Return tt
   /\ cache_lookup (store (snd r)) "p1" "foo.googleapis.com" = Some true
   /\ gets (snd r) = 0)
  /\ (let r := @ensure never_enabled "p1" "foo.googleapis.com" "" true fresh in
      fst r = Return tt
      /\ cache_lookup (store (snd r)) "p1" "foo.googleapis.com" = Some true
      /\ List.rev (List.filter is_request (trace (snd r)))
         = [HttpGet "/projects/p1/services/foo.googleapis.com" "projects/p1";
            HttpPost "/projects/p1/services/foo.googleapis.com:enable" "projects/p1"]
      /\ @get_reply never_enabled 0 "/projects/p1/services/foo.googleapis.com"
         = inr "DISABLED").
Proof. cbv zeta. vm_compute. repeat split. Qed.

(** C2. From [enablementRetries = 0], with every status query answering
    [DISABLED] and every enable request succeeding, [enableApiWithRetries]
    does not time out: it returns normally after one enable request and no
    status query, because the first poll is answered by the cache entry
    that [enable] wrote. *)
Theorem enable_with_retries_stops_after_first_enable :
  let r := @enableApiWithRetries never_enabled "p1" "foo.googleapis.com" "" true
             0 fresh in
  fst r = Return tt
  /\ posts (snd r) = 1
  /\ gets (snd r) = 0
  /\ cache_lookup (store (snd r)) "p1" "foo.googleapis.com" = Some true.
Proof. cbv zeta. vm_compute. repeat split. Qed.

(** C5 fails when the hostname itself starts with [http]: the URL form is
    checked against the service, the bare hostname is handed to the URL
    parser and rejected. *)
Lemma url_and_hostname_disagree :
  @URL_hostname never_enabled "https://httpbin.googleapis.com"
  = Some "httpbin.googleapis.com"
  /\ @check never_enabled "p1" "https://httpbin.googleapis.com" "" true fresh
     <> @check never_enabled "p1" "httpbin.googleapis.com" "" true fresh
  /\ fst (@check never_enabled "p1" "https://httpbin.googleapis.com" "" true fresh)
     = Return false
  /\ fst (@check never_enabled "p1" "httpbin.googleapis.com" "" true fresh)
     = Throw InvalidURL.
Proof.
  assert (Hurl : fst (@check never_enabled "p1" "https://httpbin.googleapis.com"
                        "" true fresh) = Return false) by (vm_compute; reflexivity).
  assert (Hbare : fst (@check never_enabled "p1" "httpbin.googleapis.com"
                         "" true fresh) = Throw InvalidURL) by (vm_compute; reflexivity).
  split; [vm_compute; reflexivity|]. split; [|split; assumption].
  intros Heq. rewrite Heq, Hbare in Hurl. discriminate.
Qed.

(** C3 fails for a cached pair whose service name starts with [http]: a
    check of the URL form caches the hostname, and a later [check] of the
    project with that hostname hands it to the URL parser and throws, cached
    or not. *)
Lemma cached_http_name_throws :
  let w := snd (@check always_enabled "p1" "https://httpbin.googleapis.com" ""
                  true fresh) in
  cache_lookup (store w) "p1" "httpbin.googleapis.com" = Some true
  /\ fst (checkAPIEnablementCache "p1" "httpbin.googleapis.com" w) = Return true
  /\ fst (@check always_enabled "p1" "httpbin.googleapis.com" "" true w)
     = Throw InvalidURL
  /\ fst (@check always_enabled "p1" "httpbin.googleapis.com" "" true w)
     <> Return true
  /\ cache_lookup (store (cached_world "p1" "httpbin.googleapis.com"))
       "p1" "httpbin.googleapis.com" = Some true
  /\ fst (@check never_enabled "p1" "httpbin.googleapis.com" "" true
            (cached_world "p1" "httpbin.googleapis.com"))
     = Throw InvalidURL.
Proof.
  cbv zeta.
  assert (Hthrows :
            fst (@check always_enabled "p1" "httpbin.googleapis.com" "" true
                   (snd (@check always_enabled "p1"
                           "https://httpbin.googleapis.com" "" true fresh)))
            = Throw InvalidURL) by (vm_compute; reflexivity).
  split; [vm_compute; reflexivity|]. split; [vm_compute; reflexivity|].
  split; [exact Hthrows|]. split; [rewrite Hthrows; discriminate|].
  split; vm_compute; reflexivity.
Qed.

Lemma occurs_eq (sub s : string) :
  occurs sub s
  = match strip_prefix sub s with
    | Some _ => true
    | None =>
        match s with
        | EmptyString => false
        | String _ s' => occurs sub s'
        end
    end.
Proof. destruct s; reflexivity. Qed.

Lemma includes_occurs (s sub : string) : includes s sub -> occurs sub s = true.
Proof.
  intros (before & after & ->).
  induction before as [|a before IH].
  - rewrite append_nil_l, occurs_eq. now rewrite strip_prefix_app.
  - rewrite append_cons, occurs_eq.
    destruct (strip_prefix sub (String a (before +:+ sub +:+ after)));
      [reflexivity|exact IH].
Qed.

(** C4 fails for a denied service whose name has a hyphen: the message reads
    [Permission denied to enable service [X]] with [X] the name between the
    brackets, the error is permission-denied, and [enable] re-throws it as
    it came, with no console URL in its message. *)
Lemma hyphenated_service_gets_no_url :
  message hyphen_refusal
  = "HTTP Error: 403, " +:+ "Permission denied to enable service ["
    +:+ "storage-component.googleapis.com" +:+ "]"
  /\ status hyphen_refusal = Some "PERMISSION_DENIED"
  /\ isPermissionError hyphen_refusal = true
  /\ @isBillingError (enable_refused hyphen_refusal) hyphen_refusal = false
  /\ exists err' : JsError,
       fst (@enable (enable_refused hyphen_refusal) "p1"
              "storage-component.googleapis.com" fresh) = Throw err'
       /\ err' = hyphen_refusal
       /\ ~ includes (message err')
             "https://console.cloud.google.com/apis/library/"
       /\ ~ includes (message err')
             ("https://console.cloud.google.com/apis/library/"
              +:+ "storage-component.googleapis.com" +:+ "?project=" +:+ "p1").
Proof.
  split; [reflexivity|]. split; [reflexivity|]. split; [reflexivity|].
  split; [reflexivity|].
  exists hyphen_refusal. split; [vm_compute; reflexivity|].
  split; [reflexivity|].
  split; intros Hin; apply includes_occurs in Hin; vm_compute in Hin;
    discriminate.
Qed.

(** [bestEffortEnsure] over an [ensure] that throws: a transport error from
    the status query, then a billing and a permission refusal from the
    enable endpoint. *)
Example bestEffortEnsure_swallows_each_kind :
  (exists e, fst (@ensure transport_failure "p1" "foo.googleapis.com" "" true fresh)
             = Throw e)
  /\ fst (@bestEffortEnsure transport_failure "p1" "foo.googleapis.com" "" true fresh)
     = Return tt
  /\ (exists e, fst (@ensure (enable_refused billing_refusal)
                       "p1" "foo.googleapis.com" "" true fresh) = Throw e)
  /\ fst (@bestEffortEnsure (enable_refused billing_refusal)
            "p1" "foo.googleapis.com" "" true fresh) = Return tt
  /\ (exists e, fst (@ensure (enable_refused permission_refusal)
                       "p1" "foo.googleapis.com" "" true fresh) = Throw e)
  /\ fst (@bestEffortEnsure (enable_refused permission_refusal)
            "p1" "foo.googleapis.com" "" true fresh) = Return tt.
Proof.
  repeat split; try (eexists; vm_compute; reflexivity); vm_compute; reflexivity.
Qed.

(** The two scenarios of the specification. *)
Example scenario_check_enabled :
  let r := @check always_enabled "p1" "foo.googleapis.com" "" false fresh in
  fst r = Return true
  /\ store (snd r) = Some {[ "p1" := {[ "foo.googleapis.com" := true ]} ]}.
Proof. cbv zeta. vm_compute. repeat split. Qed.

Example scenario_ensure_after_enable :
  let r := @ensure enabled_later "p1" "foo.googleapis.com" "" true fresh in
  fst r = Return tt
  /\ In (TrackGA4 "api_enabled" "foo.googleapis.com") (trace (snd r)).
Proof. cbv zeta. vm_compute. split; [reflexivity|]. left. reflexivity. Qed.

(** ** Instances *)

Lemma check_cache_hit_or_status_query_witness :
  (@apiNameOf never_enabled "https://foo.googleapis.com" = Some "foo.googleapis.com"
   /\ cache_lookup (store (cached_world "p1" "foo.googleapis.com"))
        "p1" "foo.googleapis.com" = Some true
   /\ @check never_enabled "p1" "https://foo.googleapis.com" "" false
        (cached_world "p1" "foo.googleapis.com")
      = (Return true,
         emit (ConfigGet API_ENABLEMENT_CACHE_KEY)
           (cached_world "p1" "foo.googleapis.com")))
  /\ (@apiNameOf always_enabled "foo.googleapis.com" = Some "foo.googleapis.com"
      /\ cache_lookup (store fresh) "p1" "foo.googleapis.com" <> Some true
      /\ @inherited always_enabled "p1" = false
      /\ @inherited always_enabled "foo.googleapis.com" = false
      /\ @get_reply always_enabled (requests fresh)
           (status_path "p1" "foo.googleapis.com") = inr "ENABLED"
      /\ fst (@check always_enabled "p1" "foo.googleapis.com" "" false fresh)
         = Return true
      /\ cache_lookup
           (store (snd (@check always_enabled "p1" "foo.googleapis.com" "" false fresh)))
           "p1" "foo.googleapis.com" = Some true).
Proof.
  assert (Hcached : cache_lookup (store (cached_world "p1" "foo.googleapis.com"))
                      "p1" "foo.googleapis.com" = Some true)
    by (vm_compute; reflexivity).
  assert (Hfresh : cache_lookup (store fresh) "p1" "foo.googleapis.com" <> Some true)
    by discriminate.
  split.
  - split; [reflexivity|]. split; [exact Hcached|].
    exact (proj1 (proj1 (@check_cache_hit_or_status_query never_enabled
             "p1" "https://foo.googleapis.com" "" "foo.googleapis.com" false
             (cached_world "p1" "foo.googleapis.com") eq_refl) Hcached)).
  - split; [reflexivity|]. split; [exact Hfresh|].
    split; [reflexivity|]. split; [reflexivity|]. split; [reflexivity|].
    destruct (proj2 (@check_cache_hit_or_status_query always_enabled
                "p1" "foo.googleapis.com" "" "foo.googleapis.com" false
                fresh eq_refl) Hfresh eq_refl eq_refl "ENABLED" eq_refl)
      as (Hr & _ & _ & Hen & _).
    split; [exact Hr|]. exact (proj2 (Hen eq_refl)).
Defined.

Lemma unparseable_http_identifier_throws_witness :
  String.prefix "http" "httpbin.googleapis.com" = true
  /\ @URL_hostname never_enabled "httpbin.googleapis.com" = None
  /\ @check never_enabled "p1" "httpbin.googleapis.com" "" false fresh
     = (Throw InvalidURL, fresh)
  /\ @ensure never_enabled "p1" "httpbin.googleapis.com" "" false fresh
     = (Throw InvalidURL, fresh).
Proof.
  split; [reflexivity|]. split; [reflexivity|].
  exact (@unparseable_http_identifier_throws never_enabled
           "p1" "httpbin.googleapis.com" "" false fresh eq_refl eq_refl).
Defined.

Lemma url_and_hostname_agree_witness :
  String.prefix "http" "https://foo.googleapis.com" = true
  /\ @URL_hostname always_enabled "https://foo.googleapis.com"
     = Some "foo.googleapis.com"
  /\ String.prefix "http" "foo.googleapis.com" = false
  /\ @check always_enabled "p1" "https://foo.googleapis.com" "" false fresh
     = @check always_enabled "p1" "foo.googleapis.com" "" false fresh
  /\ @ensure always_enabled "p1" "https://foo.googleapis.com" "" false fresh
     = @ensure always_enabled "p1" "foo.googleapis.com" "" false fresh.
Proof.
  split; [reflexivity|]. split; [reflexivity|]. split; [reflexivity|].
  exact (@url_and_hostname_agree always_enabled
           "p1" "https://foo.googleapis.com" "foo.googleapis.com" "" false fresh
           eq_refl eq_refl eq_refl).
Defined.

Lemma enable_billing_error_witness :
  @post_reply (enable_refused billing_refusal) (requests fresh)
    (enable_path "p1" "foo.googleapis.com") = Some billing_refusal
  /\ @isBillingError (enable_refused billing_refusal) billing_refusal = true
  /\ exists msg : string,
       fst (@enable (enable_refused billing_refusal) "p1" "foo.googleapis.com" fresh)
       = Throw {| name := "FirebaseError"; message := msg; status := None |}
       /\ msg = @billing_message (enable_refused billing_refusal)
                  "p1" "foo.googleapis.com"
       /\ includes msg "https://console.firebase.google.com/project/p1/usage/details"
       /\ includes "https://console.firebase.google.com/project/p1/usage/details" "p1"
       /\ includes msg "p1".
Proof.
  split; [reflexivity|]. split; [reflexivity|].
  exact (@enable_billing_error (enable_refused billing_refusal)
           "p1" "foo.googleapis.com" fresh billing_refusal eq_refl eq_refl).
Defined.

Lemma enable_permission_denied_witness :
  (@post_reply (enable_refused permission_refusal) (requests fresh)
     (enable_path "p1" "foo.googleapis.com") = Some permission_refusal
   /\ @isBillingError (enable_refused permission_refusal) permission_refusal = false
   /\ status permission_refusal = Some "PERMISSION_DENIED"
   /\ apiPermissionDeniedRegex_exec (message permission_refusal)
      = Some "foo.googleapis.com"
   /\ exists err' : JsError,
        fst (@enable (enable_refused permission_refusal) "p1" "foo.googleapis.com" fresh)
        = Throw err'
        /\ name err' = name permission_refusal
        /\ status err' = status permission_refusal
        /\ message err' = permission_message "foo.googleapis.com" "p1"
        /\ includes (message err')
             "https://console.cloud.google.com/apis/library/foo.googleapis.com?project=p1"
        /\ names_denied_service (message permission_refusal) "foo.googleapis.com")
  /\ (status hyphen_refusal = Some "PERMISSION_DENIED"
      /\ apiPermissionDeniedRegex_exec (message hyphen_refusal) = None
      /\ fst (@enable (enable_refused hyphen_refusal) "p1"
                "storage-component.googleapis.com" fresh)
         = Throw hyphen_refusal).
Proof.
  split.
  - split; [reflexivity|]. split; [reflexivity|]. split; [reflexivity|].
    split; [reflexivity|].
    exact (proj1 (@enable_permission_denied (enable_refused permission_refusal)
                    "p1" "foo.googleapis.com" fresh permission_refusal
                    eq_refl eq_refl eq_refl)
             "foo.googleapis.com" eq_refl).
  - split; [reflexivity|]. split; [reflexivity|].
    exact (proj2 (@enable_permission_denied (enable_refused hyphen_refusal)
                    "p1" "storage-component.googleapis.com" fresh hyphen_refusal
                    eq_refl eq_refl eq_refl)
             eq_refl).
Defined.

Lemma ensure_enabled_sends_no_enable_request_witness :
  let w' := snd (@check always_enabled "p1" "foo.googleapis.com" "" false
                   (@announced always_enabled "" "foo.googleapis.com" false fresh)) in
  @apiNameOf always_enabled "https://foo.googleapis.com" = Some "foo.googleapis.com"
  /\ @check always_enabled "p1" "foo.googleapis.com" "" false
       (@announced always_enabled "" "foo.googleapis.com" false fresh)
     = (Return true, w')
  /\ @ensure always_enabled "p1" "https://foo.googleapis.com" "" false fresh
     = (Return tt, w')
  /\ posts w' = posts fresh.
Proof.
  intros w'.
  assert (Hcheck : @check always_enabled "p1" "foo.googleapis.com" "" false
                     (@announced always_enabled "" "foo.googleapis.com" false fresh)
                   = (Return true, w'))
    by (vm_compute; reflexivity).
  split; [reflexivity|]. split; [exact Hcheck|].
  exact (@ensure_enabled_sends_no_enable_request always_enabled
           "p1" "https://foo.googleapis.com" "" "foo.googleapis.com" false
           fresh w' eq_refl Hcheck).
Defined.

(** * Further properties of the module *)

(** ** The cache helpers *)

Section CacheHelpers.
Context `{Platform}.

Lemma alter_or_create (f : gmap string bool -> gmap string bool)
    (projectId : string) (cache : Cache) :
  alter f projectId
    match cache !! projectId with
    | None => <[projectId := ∅]> cache
    | Some _ => cache
    end
  = <[projectId := f (default ∅ (cache !! projectId))]> cache.
Proof.
  apply map_eq. intros q.
  destruct (decide (q = projectId)) as [->|Hq].
  - rewrite lookup_alter_eq, lookup_insert_eq.
    destruct (cache !! projectId) as [inner|] eqn:Hp.
    + now rewrite Hp.
    + now rewrite lookup_insert_eq.
  - rewrite lookup_alter_ne, lookup_insert_ne by congruence.
    destruct (cache !! projectId); [reflexivity|].
    now rewrite lookup_insert_ne by congruence.
Qed.

Lemma cacheEnabledAPI_store (projectId apiName : string) (w : World) :
  store (snd (cacheEnabledAPI projectId apiName w))
  = Some (with_enabled projectId apiName (store w)).
Proof.
  unfold cacheEnabledAPI, configstore_get, configstore_set, with_enabled.
  mrun. cbn [snd store emit]. now rewrite alter_or_create.
Qed.

(** X1. Reading back after a write, for project ids and service names that
    are not inherited names: the pair just written is reported cached, and
    every other pair is reported as before the write. *)
Theorem cache_write_then_read (projectId apiName otherProject otherApi : string)
    (w : World) :
  inherited projectId = false ->
  inherited apiName = false ->
  inherited otherProject = false ->
  inherited otherApi = false ->
  fst (checkAPIEnablementCache otherProject otherApi
         (snd (cacheEnabledAPI projectId apiName w)))
  = if decide (otherProject = projectId /\ otherApi = apiName)
    then Return true
    else fst (checkAPIEnablementCache otherProject otherApi w).
Proof.
  intros _ _ _ _.
  rewrite !checkAPIEnablementCache_run. cbn [fst].
  destruct (cacheEnabledAPI_run projectId apiName w) as (c & -> & Hlook).
  cbn [snd store]. rewrite Hlook.
  destruct (decide (otherProject = projectId /\ otherApi = apiName)); reflexivity.
Qed.

(** X2. For project ids and service names that are not inherited names,
    writing the same pair twice stores what writing it once stores, and
    writes of two pairs store the same cache in either order. *)
Theorem cache_writes_idempotent_and_commute
    (projectId apiName otherProject otherApi : string) (w : World) :
  inherited projectId = false ->
  inherited apiName = false ->
  inherited otherProject = false ->
  inherited otherApi = false ->
  store (snd (cacheEnabledAPI projectId apiName
                (snd (cacheEnabledAPI projectId apiName w))))
  = store (snd (cacheEnabledAPI projectId apiName w))
  /\ store (snd (cacheEnabledAPI otherProject otherApi
                   (snd (cacheEnabledAPI projectId apiName w))))
     = store (snd (cacheEnabledAPI projectId apiName
                     (snd (cacheEnabledAPI otherProject otherApi w)))).
Proof.
  intros _ _ _ _.
  rewrite !cacheEnabledAPI_store. unfold with_enabled.
  set (c := default ∅ (store w)). cbn [from_option id].
  split; apply (f_equal Some).
  - rewrite lookup_insert_eq. cbn [from_option id].
    now rewrite !insert_insert_eq.
  - destruct (decide (otherProject = projectId)) as [->|Hne].
    + rewrite !lookup_insert_eq. cbn [from_option id]. rewrite !insert_insert_eq.
      f_equal. destruct (decide (otherApi = apiName)) as [->|Ha].
      * reflexivity.
      * now apply insert_insert_ne.
    + rewrite !lookup_insert_ne by congruence.
      now apply insert_insert_ne.
Qed.

End CacheHelpers.

(** ** check *)

Section CheckFurther.
Context `{Platform}.

Lemma check_unparsed (projectId apiUri prefix : string) (silent : bool) (w : World) :
  apiNameOf apiUri = None ->
  check projectId apiUri prefix silent w = (Throw InvalidURL, w).
Proof.
  unfold apiNameOf, check, new_URL_hostname.
  destruct (String.prefix "http" apiUri); [|discriminate].
  now intros ->.
Qed.

(** X3. For a pair that is not cached, of a project id and a service name
    that are not inherited names, a status query that fails makes [check]
    throw the client's error as it is.  The request has been sent, and the
    configstore is neither written nor changed. *)
Theorem check_propagates_query_error
    (projectId apiUri prefix apiName : string) (silent : bool) (w : World)
    (err : JsError) :
  apiNameOf apiUri = Some apiName ->
  inherited projectId = false ->
  inherited apiName = false ->
  cache_lookup (store w) projectId apiName <> Some true ->
  get_reply (requests w) (status_path projectId apiName) = inl err ->
  let r := check projectId apiUri prefix silent w in
  fst r = Throw err
  /\ store (snd r) = store w
  /\ writes (snd r) = writes w
  /\ gets (snd r) = S (gets w)
  /\ posts (snd r) = posts w.
Proof.
  intros Hname _ _ Hmiss Hreply r. subst r.
  rewrite (check_run _ _ _ _ _ _ Hname). cbn zeta.
  assert (Hd : default false (cache_lookup (store w) projectId apiName) = false).
  { destruct (cache_lookup (store w) projectId apiName) as [[|]|];
      [congruence|reflexivity|reflexivity]. }
  rewrite Hd, Hreply. repeat split.
Qed.

(** X4. A negative answer is not remembered: when [check] returns [false] it
    has sent exactly one status query and left the configstore as it was,
    so the next [check] asks the service again. *)
Theorem check_false_leaves_cache
    (projectId apiUri prefix : string) (silent : bool) (w w' : World) :
  check projectId apiUri prefix silent w = (Return false, w') ->
  store w' = store w
  /\ writes w' = writes w
  /\ gets w' = S (gets w)
  /\ requests w' = S (requests w).
Proof.
  destruct (apiNameOf apiUri) as [apiName|] eqn:Hname.
  - rewrite (check_run _ _ _ _ _ _ Hname). cbn zeta.
    destruct (default false _); [discriminate|].
    destruct (get_reply _ _) as [err|state]; [discriminate|].
    destruct (String.eqb state "ENABLED"); [discriminate|].
    intros [= <-]. repeat split.
  - rewrite (check_unparsed _ _ _ _ _ Hname). discriminate.
Qed.

(** X5. A positive answer sticks.  Once [check] has returned [true] for an
    identifier, [check] on the same identifier returns [true] from the
    cache, with no request, in the world it left and in every world that
    extends it (which is every world the module's operations can lead to). *)
Theorem check_true_is_remembered
    (projectId apiUri prefix prefix' : string) (silent silent' : bool)
    (w w' w'' : World) :
  check projectId apiUri prefix silent w = (Return true, w') ->
  extends w' w'' ->
  check projectId apiUri prefix' silent' w''
  = (Return true, emit (ConfigGet API_ENABLEMENT_CACHE_KEY) w'').
Proof.
  intros Hcheck Hext.
  destruct (apiNameOf apiUri) as [apiName|] eqn:Hname;
    [|rewrite (check_unparsed _ _ _ _ _ Hname) in Hcheck; discriminate].
  assert (Hcached : cache_lookup (store w') projectId apiName = Some true).
  { assert (Hfst : fst (check projectId apiUri prefix silent w) = Return true)
      by now rewrite Hcheck.
    assert (Hw' : w' = snd (check projectId apiUri prefix silent w))
      by now rewrite Hcheck.
    rewrite (check_run _ _ _ _ _ _ Hname) in Hfst, Hw'. cbn zeta in Hfst, Hw'.
    clear Hcheck Hext. subst w'.
    destruct (default false (cache_lookup (store w) projectId apiName)) eqn:Hd.
    - cbn [snd store emit].
      destruct (cache_lookup (store w) projectId apiName) as [[|]|];
        [reflexivity|discriminate Hd|discriminate Hd].
    - destruct (get_reply _ _) as [err|state]; [discriminate|].
      destruct (String.eqb state "ENABLED"); [|discriminate].
      match goal with
      | |- context [cacheEnabledAPI ?p ?a ?w0] =>
          destruct (cacheEnabledAPI_run p a w0) as (c & -> & Hlook)
      end.
      cbn [snd store]. rewrite Hlook.
      destruct (decide (projectId = projectId /\ apiName = apiName)) as [_|Hn];
        [reflexivity|exfalso; apply Hn; split; reflexivity]. }
  assert (Hlater : cache_lookup (store w'') projectId apiName = Some true).
  { destruct (extends_cache_grows _ _ Hext projectId apiName) as [Heq|Heq];
      [now rewrite Heq|exact Heq]. }
  rewrite (check_run _ _ _ _ _ _ Hname). cbn zeta.
  now rewrite Hlater.
Qed.

Lemma check_gets (projectId apiUri prefix : string) (silent : bool) (w : World) :
  gets (snd (check projectId apiUri prefix silent w)) <= S (gets w).
Proof.
  destruct (apiNameOf apiUri) as [apiName|] eqn:Hname.
  - rewrite (check_run _ _ _ _ _ _ Hname). cbn zeta.
    destruct (default false _); [cbn; unfold gets, count; cbn; lia|].
    destruct (get_reply _ _) as [err|state]; [reflexivity|].
    destruct (String.eqb state "ENABLED"); [|reflexivity].
    match goal with
    | |- context [cacheEnabledAPI ?p ?a ?w0] =>
        destruct (cacheEnabledAPI_run p a w0) as (c & -> & _)
    end.
    destruct silent; reflexivity.
  - rewrite (check_unparsed _ _ _ _ _ Hname). cbn [snd]. lia.
Qed.

(** X6. Whatever its arguments and outcome, [check] sends at most one request,
    which is a status query, writes the configstore at most once, and never
    sends an enable request. *)
Theorem check_sends_at_most_one_status_query
    (projectId apiUri prefix : string) (silent : bool) (w : World) :
  let w' := snd (check projectId apiUri prefix silent w) in
  requests w' <= S (requests w)
  /\ gets w' <= S (gets w)
  /\ posts w' = posts w
  /\ writes w' <= S (writes w).
Proof.
  cbn zeta.
  split; [|split; [apply check_gets|split; [apply check_posts|]]];
  (destruct (apiNameOf apiUri) as [apiName|] eqn:Hname;
   [ rewrite (check_run _ _ _ _ _ _ Hname); cbn zeta;
     destruct (default false _); [cbn; unfold writes, count; cbn; lia|];
     destruct (get_reply _ _) as [err|state];
       [cbn; unfold writes, count; cbn; lia|];
     destruct (String.eqb state "ENABLED");
       [|cbn; unfold writes, count; cbn; lia];
     match goal with
     | |- context [cacheEnabledAPI ?p ?a ?w0] =>
         destruct (cacheEnabledAPI_run p a w0) as (c & -> & _)
     end;
     destruct silent; cbn; unfold writes, count; cbn; lia
   | rewrite (check_unparsed _ _ _ _ _ Hname); cbn; lia ]).
Qed.

End CheckFurther.

(** ** enable and the retry loop *)

Section EnableFurther.
Context `{Platform}.

(** X7. A refusal that is neither a billing restriction nor a permission
    denial is re-thrown as it came. *)
Theorem enable_rethrows_other_errors (projectId apiName : string) (w : World)
    (err : JsError) :
  post_reply (requests w) (enable_path projectId apiName) = Some err ->
  isBillingError err = false ->
  status err <> Some "PERMISSION_DENIED" ->
  enable projectId apiName w
  = (Throw err,
     sent (HttpPost (enable_path projectId apiName) (quota_user projectId)) w).
Proof.
  intros Hreply Hbilling Hstatus. rewrite enable_run, Hreply, Hbilling.
  unfold isPermissionError. now rewrite bool_decide_eq_false_2.
Qed.

(** X8. Whatever the refusal, a refused enable request makes [enable] throw,
    and its only effect is the request itself: the configstore is not read
    or written and nothing is logged. *)
Theorem enable_refused_only_sends (projectId apiName : string) (w : World)
    (err : JsError) :
  post_reply (requests w) (enable_path projectId apiName) = Some err ->
  (exists thrown, fst (enable projectId apiName w) = Throw thrown)
  /\ snd (enable projectId apiName w)
     = sent (HttpPost (enable_path projectId apiName) (quota_user projectId)) w.
Proof.
  intros Hreply. rewrite enable_run, Hreply.
  destruct (isBillingError err); [split; [eexists|]; reflexivity|].
  destruct (isPermissionError err); [|split; [eexists|]; reflexivity].
  destruct (apiPermissionDeniedRegex_exec (message err));
    (split; [eexists|]; reflexivity).
Qed.

(** X9. With the counters run out ([enablementRetries] above 1, or a poll
    counter above [pollsBeforeRetry] in the last cycle), the timeout error
    is thrown at once: no sleep, no request, no cache access.  Its message
    carries the styled service name. *)
Theorem timeout_when_counters_run_out (projectId apiName prefix : string)
    (silent : bool) (enablementRetries pollRetries : nat) (w : World) :
  1 <= enablementRetries ->
  pollsBeforeRetry < pollRetries ->
  enableApiWithRetries projectId apiName prefix silent (enablementRetries + 1) w
  = (Throw (FirebaseError (timeout_message apiName)), w)
  /\ pollCheckEnabled projectId apiName prefix silent enablementRetries pollRetries w
     = (Throw (FirebaseError (timeout_message apiName)), w)
  /\ includes (timeout_message apiName) (bold apiName).
Proof.
  intros Her Hpr.
  assert (Hen : enableApiWithRetries projectId apiName prefix silent
                  (enablementRetries + 1) w
                = (Throw (FirebaseError (timeout_message apiName)), w)).
  { rewrite enableApiWithRetries_eq.
    replace (Nat.ltb 1 (enablementRetries + 1)) with true
      by (symmetry; apply Nat.ltb_lt; lia).
    reflexivity. }
  split; [exact Hen|]. split.
  - rewrite pollCheckEnabled_eq.
    replace (Nat.ltb pollsBeforeRetry pollRetries) with true
      by (symmetry; now apply Nat.ltb_lt).
    exact Hen.
  - unfold timeout_message. apply includes_app_r, includes_app_l, includes_refl.
Qed.

End EnableFurther.

(** ** Request budget *)

Section Budget.
Context `{Platform}.

(** [enable] sends exactly one enable request and no status query. *)
Lemma enable_counts (projectId apiName : string) (w : World) :
  posts (snd (enable projectId apiName w)) = S (posts w)
  /\ gets (snd (enable projectId apiName w)) = gets w.
Proof.
  rewrite enable_run.
  destruct (post_reply (requests w) (enable_path projectId apiName)) as [err|].
  - destruct (isBillingError err); [split; reflexivity|].
    destruct (isPermissionError err); [|split; reflexivity].
    destruct (apiPermissionDeniedRegex_exec (message err)); split; reflexivity.
  - match goal with
    | |- context [cacheEnabledAPI ?p ?a ?w0] =>
        destruct (cacheEnabledAPI_run p a w0) as (c & -> & _)
    end.
    split; reflexivity.
Qed.

Lemma retry_counts (projectId apiName prefix : string) (silent : bool) :
  forall (fuel : nat) (f : Frame) (w : World),
    posts (snd (retry fuel projectId apiName prefix silent f w))
    <= posts w + enables_left f
    /\ gets (snd (retry fuel projectId apiName prefix silent f w))
       <= gets w + polls_left f.
Proof.
  induction fuel as [|fuel IH]; intros f w; cbn [retry].
  - cbn. lia.
  - destruct f as [er pr|er].
    + destruct (Nat.ltb pollsBeforeRetry pr) eqn:Hpr.
      * destruct (IH (Enabling (er + 1)) w) as [Hp Hg].
        unfold enables_left, polls_left, pollsBeforeRetry in *. split; lia.
      * apply Nat.ltb_ge in Hpr. mrun. cbn beta iota.
        set (w0 := emit (SetTimeout pollInterval) w).
        pose proof (check_gets projectId apiName prefix silent w0) as Hg.
        pose proof (check_posts projectId apiName prefix silent w0) as Hp.
        destruct (check projectId apiName prefix silent w0) as [[[|]|e] w1];
          cbn [snd] in *.
        -- unfold enables_left, polls_left, pollsBeforeRetry in *.
           change (posts (emit (TrackGA4 "api_enabled" apiName) w1)) with (posts w1).
           change (gets (emit (TrackGA4 "api_enabled" apiName) w1)) with (gets w1).
           change (posts w0) with (posts w) in Hp.
           change (gets w0) with (gets w) in Hg. split; lia.
        -- change (posts w0) with (posts w) in Hp.
           change (gets w0) with (gets w) in Hg.
           destruct silent; cbn [negb]; cbn beta iota;
             match goal with
             | |- context [retry fuel _ _ _ _ _ ?w2] =>
                 destruct (IH (Polling er (pr + 1)) w2) as [IHp IHg];
                 assert (Hp2 : posts w2 = posts w1) by reflexivity;
                 assert (Hg2 : gets w2 = gets w1) by reflexivity
             end;
             unfold enables_left, polls_left, pollsBeforeRetry in *; split; lia.
        -- change (posts w0) with (posts w) in Hp.
           change (gets w0) with (gets w) in Hg.
           unfold enables_left, polls_left, pollsBeforeRetry in *. split; lia.
    + destruct (Nat.ltb 1 er) eqn:Her.
      * unfold throw. cbn [snd]. split; lia.
      * apply Nat.ltb_ge in Her. mrun.
        destruct (enable_counts projectId apiName w) as [Hp Hg].
        destruct (enable projectId apiName w) as [[[]|e] w1]; cbn [snd] in *.
        -- destruct (IH (Polling er 0) w1) as [IHp IHg].
           unfold enables_left, polls_left, pollsBeforeRetry in *. split; lia.
        -- unfold enables_left, polls_left, pollsBeforeRetry in *. split; lia.
Qed.

(** X11. The counters bound the traffic.  Whatever the service answers,
    [enableApiWithRetries] entered at [enablementRetries] sends at most
    [2 - enablementRetries] enable requests and at most 13 status queries
    per remaining enable attempt, and [pollCheckEnabled] at most what is
    left of its cycle plus the same for the remaining attempt. *)
Theorem retries_bound_requests (projectId apiName prefix : string)
    (silent : bool) (enablementRetries pollRetries : nat) (w : World) :
  (posts (snd (enableApiWithRetries projectId apiName prefix silent
                 enablementRetries w))
   <= posts w + (2 - enablementRetries)
   /\ gets (snd (enableApiWithRetries projectId apiName prefix silent
                   enablementRetries w))
      <= gets w + (2 - enablementRetries) * (pollsBeforeRetry + 1))
  /\ (posts (snd (pollCheckEnabled projectId apiName prefix silent
                    enablementRetries pollRetries w))
      <= posts w + (1 - enablementRetries)
      /\ gets (snd (pollCheckEnabled projectId apiName prefix silent
                      enablementRetries pollRetries w))
         <= gets w + (pollsBeforeRetry + 1 - pollRetries)
            + (1 - enablementRetries) * (pollsBeforeRetry + 1)).
Proof.
  split.
  - apply (retry_counts projectId apiName prefix silent _
             (Enabling enablementRetries) w).
  - destruct (retry_counts projectId apiName prefix silent
                (budget (Polling enablementRetries pollRetries))
                (Polling enablementRetries pollRetries) w) as [Hp Hg].
    unfold pollCheckEnabled. cbn [enables_left polls_left] in *. split; lia.
Qed.

(** What [ensure] does once the hostname is known, by cases on [check]. *)
Lemma ensure_run (projectId apiUri prefix hostname : string) (silent : bool)
    (w : World) :
  apiNameOf apiUri = Some hostname ->
  ensure projectId apiUri prefix silent w
  = match check projectId hostname prefix silent
            (announced prefix hostname silent w) with
    | (Return true, w') => (Return tt, w')
    | (Return false, w') =>
        enableApiWithRetries projectId hostname prefix silent 0
          (if silent then w'
           else emit (LogLabeledWarning prefix
                        ("missing required API " +:+ bold hostname
                         +:+ ". Enabling now...")) w')
    | (Throw e, w') => (Throw e, w')
    end.
Proof.
  intros Hname. unfold ensure, new_URL_hostname, announced.
  unfold apiNameOf in Hname.
  destruct (String.prefix "http" apiUri).
  - rewrite Hname. mrun. destruct silent; cbn [negb];
      destruct (check _ _ _ _ _) as [[[|]|e] w']; reflexivity.
  - injection Hname as ->. mrun. destruct silent; cbn [negb];
      destruct (check _ _ _ _ _) as [[[|]|e] w']; reflexivity.
Qed.

Lemma ensure_unparsed (projectId apiUri prefix : string) (silent : bool) (w : World) :
  apiNameOf apiUri = None ->
  ensure projectId apiUri prefix silent w = (Throw InvalidURL, w).
Proof.
  unfold apiNameOf, ensure, new_URL_hostname.
  destruct (String.prefix "http" apiUri); [|discriminate].
  now intros ->.
Qed.

(** X12. One call of [ensure], and so of [bestEffortEnsure], sends at most two
    enable requests and at most 27 status queries (its own and 13 after
    each enable request), whatever the service answers. *)
Theorem ensure_bounds_requests (projectId apiUri prefix : string)
    (silent : bool) (w : World) :
  posts (snd (ensure projectId apiUri prefix silent w)) <= posts w + 2
  /\ gets (snd (ensure projectId apiUri prefix silent w))
     <= gets w + 1 + 2 * (pollsBeforeRetry + 1)
  /\ posts (snd (bestEffortEnsure projectId apiUri prefix silent w))
     = posts (snd (ensure projectId apiUri prefix silent w))
  /\ gets (snd (bestEffortEnsure projectId apiUri prefix silent w))
     = gets (snd (ensure projectId apiUri prefix silent w)).
Proof.
  assert (Hens : posts (snd (ensure projectId apiUri prefix silent w)) <= posts w + 2
                 /\ gets (snd (ensure projectId apiUri prefix silent w))
                    <= gets w + 1 + 2 * (pollsBeforeRetry + 1)).
  { destruct (apiNameOf apiUri) as [hostname|] eqn:Hname.
    - rewrite (ensure_run _ _ _ _ _ _ Hname).
      set (w0 := announced prefix hostname silent w).
      assert (Hp0 : posts w0 = posts w)
        by (unfold w0, announced; destruct silent; reflexivity).
      assert (Hg0 : gets w0 = gets w)
        by (unfold w0, announced; destruct silent; reflexivity).
      pose proof (check_gets projectId hostname prefix silent w0) as Hg.
      pose proof (check_posts projectId hostname prefix silent w0) as Hp.
      destruct (check projectId hostname prefix silent w0) as [[[|]|e] w1];
        cbn [snd] in *; [split; lia| |split; lia].
      match goal with
      | |- context [enableApiWithRetries _ _ _ _ 0 ?w2] =>
          destruct (retry_counts projectId hostname prefix silent
                      (budget (Enabling 0)) (Enabling 0) w2) as [IHp IHg];
          assert (Hp2 : posts w2 = posts w1) by (destruct silent; reflexivity);
          assert (Hg2 : gets w2 = gets w1) by (destruct silent; reflexivity)
      end.
      unfold enableApiWithRetries.
      cbn [enables_left polls_left] in *. split; lia.
    - rewrite (ensure_unparsed _ _ _ _ _ Hname). cbn [snd]. split; lia. }
  destruct Hens as [Hp Hg]. split; [exact Hp|]. split; [exact Hg|].
  unfold bestEffortEnsure. mrun.
  destruct (ensure projectId apiUri prefix silent w) as [[[]|e] w1];
    split; reflexivity.
Qed.

End Budget.

(** ** Silence *)

Section Keeps.
Variable R : World -> World -> Prop.
Hypothesis R_refl : forall w, R w w.
Hypothesis R_trans : forall w1 w2 w3, R w1 w2 -> R w2 w3 -> R w1 w3.

Lemma keeps_ret {A} (a : A) : keeps R (mret a).
Proof. intros w. apply R_refl. Qed.

Lemma keeps_throw {A} (e : JsError) : keeps R (@throw A e).
Proof. intros w. apply R_refl. Qed.

Lemma keeps_bind {A B} (m : M A) (k : A -> M B) :
  keeps R m -> (forall a, keeps R (k a)) -> keeps R (m ≫= k).
Proof.
  intros Hm Hk w. mrun. specialize (Hm w).
  destruct (m w) as [[a|e] w1]; cbn [snd] in *; [|exact Hm].
  eapply R_trans; [exact Hm|apply Hk].
Qed.

Lemma keeps_try_catch {A} (body : M A) (handler : JsError -> M A) :
  keeps R body -> (forall e, keeps R (handler e)) ->
  keeps R (try_catch body handler).
Proof.
  intros Hb Hh w. unfold try_catch. specialize (Hb w).
  destruct (body w) as [[a|e] w1]; cbn [snd] in *; [exact Hb|].
  eapply R_trans; [exact Hb|apply Hh].
Qed.

End Keeps.

Section Silence.
Context `{Platform}.

Lemma same_labeled_logs_refl (w : World) : same_labeled_logs w w.
Proof. reflexivity. Qed.

Lemma same_labeled_logs_trans (w1 w2 w3 : World) :
  same_labeled_logs w1 w2 -> same_labeled_logs w2 w3 -> same_labeled_logs w1 w3.
Proof. unfold same_labeled_logs. congruence. Qed.

Lemma quiet_bind {A B} (m : M A) (k : A -> M B) :
  quiet m -> (forall a, quiet (k a)) -> quiet (m ≫= k).
Proof. apply keeps_bind, same_labeled_logs_trans. Qed.

Lemma quiet_ret {A} (a : A) : quiet (mret a).
Proof. apply keeps_ret, same_labeled_logs_refl. Qed.

Lemma quiet_throw {A} (e : JsError) : quiet (@throw A e).
Proof. apply keeps_throw, same_labeled_logs_refl. Qed.

Lemma quiet_perform (e : Event) : is_labeled_log e = false -> quiet (perform e).
Proof.
  intros He w. unfold same_labeled_logs, labeled_logs, count, perform.
  cbn. now rewrite He.
Qed.

Lemma quiet_cacheEnabledAPI (projectId apiName : string) :
  quiet (cacheEnabledAPI projectId apiName).
Proof.
  intros w. destruct (cacheEnabledAPI_run projectId apiName w) as (c & -> & _).
  reflexivity.
Qed.

Lemma quiet_check (projectId apiUri prefix : string) :
  quiet (check projectId apiUri prefix true).
Proof.
  intros w. destruct (apiNameOf apiUri) as [apiName|] eqn:Hname.
  - rewrite (check_run _ _ _ _ _ _ Hname). cbn zeta.
    destruct (default false _); [reflexivity|].
    destruct (get_reply _ _) as [err|state]; [reflexivity|].
    destruct (String.eqb state "ENABLED"); [|reflexivity].
    cbn [snd]. unfold same_labeled_logs.
    now rewrite (quiet_cacheEnabledAPI projectId apiName _).
  - rewrite (check_unparsed _ _ _ _ _ Hname). reflexivity.
Qed.

Lemma quiet_enable (projectId apiName : string) : quiet (enable projectId apiName).
Proof.
  intros w. rewrite enable_run.
  destruct (post_reply _ _) as [err|].
  - destruct (isBillingError err); [reflexivity|].
    destruct (isPermissionError err); [|reflexivity].
    destruct (apiPermissionDeniedRegex_exec (message err)); reflexivity.
  - unfold same_labeled_logs.
    now rewrite (quiet_cacheEnabledAPI projectId apiName _).
Qed.

Lemma quiet_retry (projectId apiName prefix : string) :
  forall (fuel : nat) (f : Frame),
    quiet (retry fuel projectId apiName prefix true f).
Proof.
  induction fuel as [|fuel IH]; intros f; cbn [retry].
  - apply quiet_ret.
  - destruct f as [er pr|er].
    + destruct (Nat.ltb pollsBeforeRetry pr); [apply IH|].
      apply quiet_bind; [now apply quiet_perform|intros _].
      apply quiet_bind; [apply quiet_check|intros isEnabled].
      destruct isEnabled.
      * apply quiet_bind; [now apply quiet_perform|intros _]. apply quiet_ret.
      * cbn [negb]. apply quiet_bind; [apply quiet_ret|intros _]. apply IH.
    + destruct (Nat.ltb 1 er); [apply quiet_throw|].
      apply quiet_bind; [apply quiet_enable|intros _]. apply IH.
Qed.

Lemma quiet_ensure (projectId apiUri prefix : string) :
  quiet (ensure projectId apiUri prefix true).
Proof.
  unfold ensure. cbn [negb].
  apply quiet_bind.
  { destruct (String.prefix "http" apiUri); [|apply quiet_ret].
    unfold new_URL_hostname.
    destruct (URL_hostname apiUri); [apply quiet_ret|apply quiet_throw]. }
  intros hostname. apply quiet_bind; [apply quiet_ret|intros _].
  apply quiet_bind; [apply quiet_check|intros isEnabled].
  destruct isEnabled; [apply quiet_ret|].
  apply quiet_bind; [apply quiet_ret|intros _]. apply quiet_retry.
Qed.

(** X13. With [silent] set, none of the functions that take the flag prints a
    labelled log line ([logLabeledSuccess], [logLabeledBullet],
    [logLabeledWarning]), whatever path they take and whether they return
    or throw. *)
Theorem silent_prints_no_labeled_line (projectId apiUri prefix : string)
    (enablementRetries pollRetries : nat) (w : World) :
  labeled_logs (snd (check projectId apiUri prefix true w)) = labeled_logs w
  /\ labeled_logs (snd (pollCheckEnabled projectId apiUri prefix true
                          enablementRetries pollRetries w)) = labeled_logs w
  /\ labeled_logs (snd (enableApiWithRetries projectId apiUri prefix true
                          enablementRetries w)) = labeled_logs w
  /\ labeled_logs (snd (ensure projectId apiUri prefix true w)) = labeled_logs w
  /\ labeled_logs (snd (bestEffortEnsure projectId apiUri prefix true w))
     = labeled_logs w.
Proof.
  split; [apply quiet_check|]. split; [apply quiet_retry|].
  split; [apply quiet_retry|]. split; [apply quiet_ensure|].
  apply (keeps_try_catch same_labeled_logs same_labeled_logs_trans).
  - apply quiet_ensure.
  - intros e. now apply quiet_perform.
Qed.

End Silence.

(** ** ensure *)

Section EnsureFurther.
Context `{Platform}.

(** X14. For a pair that is not cached, of a project id and a service name
    that are not inherited names, a status query that fails makes [ensure]
    throw the client's error as it is; no enable request is sent and the
    configstore is unchanged. *)
Theorem ensure_propagates_query_error
    (projectId apiUri prefix hostname apiName : string) (silent : bool)
    (w : World) (err : JsError) :
  apiNameOf apiUri = Some hostname ->
  apiNameOf hostname = Some apiName ->
  inherited projectId = false ->
  inherited apiName = false ->
  cache_lookup (store w) projectId apiName <> Some true ->
  get_reply (requests w) (status_path projectId apiName) = inl err ->
  fst (ensure projectId apiUri prefix silent w) = Throw err
  /\ posts (snd (ensure projectId apiUri prefix silent w)) = posts w
  /\ store (snd (ensure projectId apiUri prefix silent w)) = store w.
Proof.
  intros Hhost Hname _ _ Hmiss Hreply.
  rewrite (ensure_run _ _ _ _ _ _ Hhost).
  rewrite (check_run _ _ _ _ _ _ Hname). cbn zeta.
  assert (Hs : store (announced prefix hostname silent w) = store w)
    by (unfold announced; destruct silent; reflexivity).
  assert (Hr : requests (announced prefix hostname silent w) = requests w)
    by (unfold announced; destruct silent; reflexivity).
  rewrite Hs, Hr.
  assert (Hd : default false (cache_lookup (store w) projectId apiName) = false).
  { destruct (cache_lookup (store w) projectId apiName) as [[|]|];
      [congruence|reflexivity|reflexivity]. }
  rewrite Hd, Hreply. cbn [fst snd].
  split; [reflexivity|]. split; [|exact Hs].
  unfold announced. destruct silent; reflexivity.
Qed.

(** X15. [ensure] derives the hostname and hands it to [check], which derives a
    name again.  So a URL whose hostname starts with [http] and is not
    itself a URL makes [ensure] throw the URL parser's error right after
    its first log line: no cache read, no request. *)
Theorem ensure_rejects_http_hostname
    (projectId apiUri prefix hostname : string) (silent : bool) (w : World) :
  apiNameOf apiUri = Some hostname ->
  apiNameOf hostname = None ->
  ensure projectId apiUri prefix silent w
  = (Throw InvalidURL, announced prefix hostname silent w).
Proof.
  intros Hhost Hname. rewrite (ensure_run _ _ _ _ _ _ Hhost).
  now rewrite (check_unparsed _ _ _ _ _ Hname).
Qed.


End EnsureFurther.

(** ** Instances of the further properties *)

Lemma cache_write_then_read_witness :
  @inherited never_enabled "p1" = false
  /\ @inherited never_enabled "foo.googleapis.com" = false
  /\ @inherited never_enabled "p2" = false
  /\ @inherited never_enabled "bar.googleapis.com" = false
  /\ fst (checkAPIEnablementCache "p2" "bar.googleapis.com"
            (snd (cacheEnabledAPI "p1" "foo.googleapis.com"
                    (cached_world "p2" "bar.googleapis.com"))))
     = (if decide ("p2" = "p1" /\ "bar.googleapis.com" = "foo.googleapis.com")
        then Return true
        else fst (checkAPIEnablementCache "p2" "bar.googleapis.com"
                    (cached_world "p2" "bar.googleapis.com"))).
Proof.
  split; [reflexivity|]. split; [reflexivity|].
  split; [reflexivity|]. split; [reflexivity|].
  exact (@cache_write_then_read never_enabled "p1" "foo.googleapis.com"
           "p2" "bar.googleapis.com" (cached_world "p2" "bar.googleapis.com")
           eq_refl eq_refl eq_refl eq_refl).
Defined.

Lemma cache_writes_idempotent_and_commute_witness :
  @inherited never_enabled "p1" = false
  /\ @inherited never_enabled "foo.googleapis.com" = false
  /\ @inherited never_enabled "p2" = false
  /\ @inherited never_enabled "bar.googleapis.com" = false
  /\ store (snd (cacheEnabledAPI "p1" "foo.googleapis.com"
                   (snd (cacheEnabledAPI "p1" "foo.googleapis.com" fresh))))
     = store (snd (cacheEnabledAPI "p1" "foo.googleapis.com" fresh))
  /\ store (snd (cacheEnabledAPI "p2" "bar.googleapis.com"
                   (snd (cacheEnabledAPI "p1" "foo.googleapis.com" fresh))))
     = store (snd (cacheEnabledAPI "p1" "foo.googleapis.com"
                     (snd (cacheEnabledAPI "p2" "bar.googleapis.com" fresh)))).
Proof.
  split; [reflexivity|]. split; [reflexivity|].
  split; [reflexivity|]. split; [reflexivity|].
  exact (@cache_writes_idempotent_and_commute never_enabled
           "p1" "foo.googleapis.com" "p2" "bar.googleapis.com" fresh
           eq_refl eq_refl eq_refl eq_refl).
Defined.

Lemma check_propagates_query_error_witness :
  @apiNameOf transport_failure "foo.googleapis.com" = Some "foo.googleapis.com"
  /\ @inherited transport_failure "p1" = false
  /\ @inherited transport_failure "foo.googleapis.com" = false
  /\ cache_lookup (store fresh) "p1" "foo.googleapis.com" <> Some true
  /\ (exists err,
        @get_reply transport_failure (requests fresh)
          (status_path "p1" "foo.googleapis.com") = inl err
        /\ fst (@check transport_failure "p1" "foo.googleapis.com" "" false fresh)
           = Throw err
        /\ store (snd (@check transport_failure "p1" "foo.googleapis.com" ""
                         false fresh)) = store fresh).
Proof.
  assert (Hmiss : cache_lookup (store fresh) "p1" "foo.googleapis.com" <> Some true)
    by discriminate.
  split; [reflexivity|]. split; [reflexivity|]. split; [reflexivity|].
  split; [exact Hmiss|].
  eexists. split; [reflexivity|].
  destruct (@check_propagates_query_error transport_failure
              "p1" "foo.googleapis.com" "" "foo.googleapis.com" false fresh
              _ eq_refl eq_refl eq_refl Hmiss eq_refl) as (Hr & Hs & _).
  split; [exact Hr|exact Hs].
Defined.

Lemma check_false_leaves_cache_witness :
  let w' := snd (@check never_enabled "p1" "foo.googleapis.com" "" false fresh) in
  @check never_enabled "p1" "foo.googleapis.com" "" false fresh = (Return false, w')
  /\ store w' = store fresh
  /\ writes w' = writes fresh
  /\ gets w' = S (gets fresh)
  /\ requests w' = S (requests fresh).
Proof.
  intros w'.
  assert (Hcheck : @check never_enabled "p1" "foo.googleapis.com" "" false fresh
                   = (Return false, w')) by (vm_compute; reflexivity).
  split; [exact Hcheck|].
  exact (@check_false_leaves_cache never_enabled
           "p1" "foo.googleapis.com" "" false fresh w' Hcheck).
Defined.

Lemma check_true_is_remembered_witness :
  let w' := snd (@check always_enabled "p1" "foo.googleapis.com" "" false fresh) in
  let w'' := snd (cacheEnabledAPI "p2" "bar.googleapis.com" w') in
  @check always_enabled "p1" "foo.googleapis.com" "" false fresh = (Return true, w')
  /\ extends w' w''
  /\ @check always_enabled "p1" "foo.googleapis.com" "again" true w''
     = (Return true, emit (ConfigGet API_ENABLEMENT_CACHE_KEY) w'').
Proof.
  intros w' w''.
  assert (Hcheck : @check always_enabled "p1" "foo.googleapis.com" "" false fresh
                   = (Return true, w')) by (vm_compute; reflexivity).
  assert (Hext : extends w' w'')
    by apply growing_cacheEnabledAPI.
  split; [exact Hcheck|]. split; [exact Hext|].
  exact (@check_true_is_remembered always_enabled
           "p1" "foo.googleapis.com" "" "again" false true fresh w' w''
           Hcheck Hext).
Defined.

Lemma enable_rethrows_other_errors_witness :
  @post_reply (enable_refused server_error) (requests fresh)
    (enable_path "p1" "foo.googleapis.com") = Some server_error
  /\ @isBillingError (enable_refused server_error) server_error = false
  /\ status server_error <> Some "PERMISSION_DENIED"
  /\ @enable (enable_refused server_error) "p1" "foo.googleapis.com" fresh
     = (Throw server_error,
        sent (HttpPost (enable_path "p1" "foo.googleapis.com")
                (quota_user "p1")) fresh).
Proof.
  assert (Hst : status server_error <> Some "PERMISSION_DENIED") by discriminate.
  split; [reflexivity|]. split; [reflexivity|]. split; [exact Hst|].
  exact (@enable_rethrows_other_errors (enable_refused server_error)
           "p1" "foo.googleapis.com" fresh server_error eq_refl eq_refl Hst).
Defined.

Lemma enable_refused_only_sends_witness :
  @post_reply (enable_refused permission_refusal) (requests fresh)
    (enable_path "p1" "foo.googleapis.com") = Some permission_refusal
  /\ (exists thrown,
        fst (@enable (enable_refused permission_refusal)
               "p1" "foo.googleapis.com" fresh) = Throw thrown)
  /\ snd (@enable (enable_refused permission_refusal)
            "p1" "foo.googleapis.com" fresh)
     = sent (HttpPost (enable_path "p1" "foo.googleapis.com")
               (quota_user "p1")) fresh.
Proof.
  split; [reflexivity|].
  exact (@enable_refused_only_sends (enable_refused permission_refusal)
           "p1" "foo.googleapis.com" fresh permission_refusal eq_refl).
Defined.

Lemma timeout_when_counters_run_out_witness :
  1 <= 1
  /\ pollsBeforeRetry < 13
  /\ @enableApiWithRetries never_enabled "p1" "foo.googleapis.com" "" false (1 + 1)
       fresh
     = (Throw (FirebaseError (@timeout_message never_enabled "foo.googleapis.com")),
        fresh)
  /\ @pollCheckEnabled never_enabled "p1" "foo.googleapis.com" "" false 1 13 fresh
     = (Throw (FirebaseError (@timeout_message never_enabled "foo.googleapis.com")),
        fresh)
  /\ includes (@timeout_message never_enabled "foo.googleapis.com")
       (@bold never_enabled "foo.googleapis.com").
Proof.
  assert (H1 : 1 <= 1) by lia.
  assert (H2 : pollsBeforeRetry < 13) by (unfold pollsBeforeRetry; lia).
  split; [exact H1|]. split; [exact H2|].
  exact (@timeout_when_counters_run_out never_enabled
           "p1" "foo.googleapis.com" "" false 1 13 fresh H1 H2).
Defined.

Lemma ensure_propagates_query_error_witness :
  @apiNameOf transport_failure "https://foo.googleapis.com"
  = Some "foo.googleapis.com"
  /\ @apiNameOf transport_failure "foo.googleapis.com" = Some "foo.googleapis.com"
  /\ @inherited transport_failure "p1" = false
  /\ @inherited transport_failure "foo.googleapis.com" = false
  /\ cache_lookup (store fresh) "p1" "foo.googleapis.com" <> Some true
  /\ (exists err,
        @get_reply transport_failure (requests fresh)
          (status_path "p1" "foo.googleapis.com") = inl err
        /\ fst (@ensure transport_failure "p1" "https://foo.googleapis.com" ""
                  false fresh) = Throw err
        /\ posts (snd (@ensure transport_failure "p1" "https://foo.googleapis.com"
                         "" false fresh)) = posts fresh).
Proof.
  assert (Hmiss : cache_lookup (store fresh) "p1" "foo.googleapis.com" <> Some true)
    by discriminate.
  split; [reflexivity|]. split; [reflexivity|].
  split; [reflexivity|]. split; [reflexivity|]. split; [exact Hmiss|].
  eexists. split; [reflexivity|].
  destruct (@ensure_propagates_query_error transport_failure
              "p1" "https://foo.googleapis.com" "" "foo.googleapis.com"
              "foo.googleapis.com" false fresh _ eq_refl eq_refl eq_refl eq_refl
              Hmiss eq_refl)
    as (Hr & Hp & _).
  split; [exact Hr|exact Hp].
Defined.

Lemma ensure_rejects_http_hostname_witness :
  @apiNameOf never_enabled "https://httpbin.googleapis.com"
  = Some "httpbin.googleapis.com"
  /\ @apiNameOf never_enabled "httpbin.googleapis.com" = None
  /\ @ensure never_enabled "p1" "https://httpbin.googleapis.com" "" false fresh
     = (Throw InvalidURL,
        @announced never_enabled "" "httpbin.googleapis.com" false fresh).
Proof.
  split; [reflexivity|]. split; [reflexivity|].
  exact (@ensure_rejects_http_hostname never_enabled
           "p1" "https://httpbin.googleapis.com" "" "httpbin.googleapis.com"
           false fresh eq_refl eq_refl).
Defined.

Lemma poll_cycle_times_out_witness :
  String.prefix "http" "foo.googleapis.com" = false
  /\ @inherited never_enabled "p1" = false
  /\ @inherited never_enabled "foo.googleapis.com" = false
  /\ (forall n path, exists state,
        @get_reply never_enabled n path = inr state /\ state <> "ENABLED")
  /\ 13 <= pollsBeforeRetry + 1
  /\ cache_lookup (store fresh) "p1" "foo.googleapis.com" <> Some true
  /\ (let r := @pollCheckEnabled never_enabled "p1" "foo.googleapis.com" "" true 1
                 (pollsBeforeRetry + 1 - 13) fresh in
      fst r = Throw (FirebaseError (@timeout_message never_enabled
                                      "foo.googleapis.com"))
      /\ gets (snd r) = gets fresh + 13
      /\ posts (snd r) = posts fresh
      /\ store (snd r) = store fresh).
Proof.
  assert (Hreplies : forall n path, exists state,
             @get_reply never_enabled n path = inr state /\ state <> "ENABLED").
  { intros n path. exists "DISABLED". split; [reflexivity|discriminate]. }
  assert (Hk : 13 <= pollsBeforeRetry + 1) by (unfold pollsBeforeRetry; lia).
  assert (Hmiss : cache_lookup (store fresh) "p1" "foo.googleapis.com" <> Some true)
    by discriminate.
  split; [reflexivity|]. split; [reflexivity|]. split; [reflexivity|].
  split; [exact Hreplies|]. split; [exact Hk|].
  split; [exact Hmiss|].
  exact (@poll_cycle_times_out never_enabled "p1" "foo.googleapis.com" "" true
           eq_refl eq_refl eq_refl Hreplies 13 fresh Hk Hmiss).
Defined.

(** ** Telemetry and pacing *)

Section Pace.
Context `{Platform}.

(** [check] and [enable] neither sleep nor send telemetry. *)
Lemma check_pace (projectId apiUri prefix : string) (silent : bool) (w : World) :
  tracks (snd (check projectId apiUri prefix silent w)) = tracks w
  /\ sleeps (snd (check projectId apiUri prefix silent w)) = sleeps w.
Proof.
  destruct (apiNameOf apiUri) as [apiName|] eqn:Hname.
  - rewrite (check_run _ _ _ _ _ _ Hname). cbn zeta.
    destruct (default false _); [split; reflexivity|].
    destruct (get_reply _ _) as [err|state]; [split; reflexivity|].
    destruct (String.eqb state "ENABLED"); [|split; reflexivity].
    match goal with
    | |- context [cacheEnabledAPI ?p ?a ?w0] =>
        destruct (cacheEnabledAPI_run p a w0) as (c & -> & _)
    end.
    destruct silent; split; reflexivity.
  - rewrite (check_unparsed _ _ _ _ _ Hname). split; reflexivity.
Qed.

Lemma enable_pace (projectId apiName : string) (w : World) :
  tracks (snd (enable projectId apiName w)) = tracks w
  /\ sleeps (snd (enable projectId apiName w)) = sleeps w.
Proof.
  rewrite enable_run.
  destruct (post_reply _ _) as [err|].
  - destruct (isBillingError err); [split; reflexivity|].
    destruct (isPermissionError err); [|split; reflexivity].
    destruct (apiPermissionDeniedRegex_exec (message err)); split; reflexivity.
  - match goal with
    | |- context [cacheEnabledAPI ?p ?a ?w0] =>
        destruct (cacheEnabledAPI_run p a w0) as (c & -> & _)
    end.
    split; reflexivity.
Qed.

Lemma retry_telemetry (projectId apiName prefix : string) (silent : bool) :
  forall (fuel : nat) (f : Frame) (w : World),
    budget f <= fuel ->
    tracks (snd (retry fuel projectId apiName prefix silent f w))
    = tracks w
      + (if returned (fst (retry fuel projectId apiName prefix silent f w))
         then 1 else 0).
Proof.
  induction fuel as [|fuel IH]; intros f w Hfuel.
  - destruct f; unfold budget, pollsBeforeRetry in Hfuel; lia.
  - cbn [retry]. destruct f as [er pr|er].
    + destruct (Nat.ltb pollsBeforeRetry pr) eqn:Hpr.
      * pose proof (budget_exhausted er pr Hpr). apply IH. lia.
      * pose proof (budget_polling er pr Hpr) as Hb. mrun. lazy beta iota.
        set (w0 := emit (SetTimeout pollInterval) w).
        destruct (check_pace projectId apiName prefix silent w0) as [Ht _].
        change (tracks w0) with (tracks w) in Ht.
        destruct (check projectId apiName prefix silent w0) as [[[|]|e] w1];
          cbn [fst snd] in *.
        -- cbn [returned]. unfold tracks, count in *. cbn. lia.
        -- destruct silent; cbn [negb]; lazy beta iota;
             match goal with
             | |- context [retry fuel _ _ _ _ _ ?w2] =>
                 rewrite (IH (Polling er (pr + 1)) w2) by lia;
                 change (tracks w2) with (tracks w1)
             end; lia.
        -- cbn [returned]. lia.
    + destruct (Nat.ltb 1 er) eqn:Her.
      * unfold throw. cbn [fst snd returned]. lia.
      * pose proof (budget_enabling er Her) as Hb. mrun.
        destruct (enable_pace projectId apiName w) as [Ht _].
        destruct (enable projectId apiName w) as [[[]|e] w1]; cbn [fst snd] in *.
        -- rewrite (IH (Polling er 0) w1) by lia. lia.
        -- cbn [returned]. lia.
Qed.

Lemma retry_throttle (projectId apiName prefix : string) (silent : bool) :
  forall (fuel : nat) (f : Frame) (w : World),
    gets (snd (retry fuel projectId apiName prefix silent f w)) + sleeps w
    <= gets w + sleeps (snd (retry fuel projectId apiName prefix silent f w))
    /\ sleeps (snd (retry fuel projectId apiName prefix silent f w))
       <= sleeps w + polls_left f.
Proof.
  induction fuel as [|fuel IH]; intros f w; cbn [retry].
  - cbn. lia.
  - destruct f as [er pr|er].
    + destruct (Nat.ltb pollsBeforeRetry pr) eqn:Hpr.
      * destruct (IH (Enabling (er + 1)) w) as [Hg Hs].
        unfold polls_left, pollsBeforeRetry in *. split; lia.
      * apply Nat.ltb_ge in Hpr. mrun. lazy beta iota.
        set (w0 := emit (SetTimeout pollInterval) w).
        pose proof (check_gets projectId apiName prefix silent w0) as Hg.
        destruct (check_pace projectId apiName prefix silent w0) as [_ Hs].
        change (gets w0) with (gets w) in Hg.
        change (sleeps w0) with (S (sleeps w)) in Hs.
        destruct (check projectId apiName prefix silent w0) as [[[|]|e] w1];
          cbn [snd] in *.
        -- change (gets (emit (TrackGA4 "api_enabled" apiName) w1)) with (gets w1).
           change (sleeps (emit (TrackGA4 "api_enabled" apiName) w1))
             with (sleeps w1).
           unfold polls_left, pollsBeforeRetry in *. split; lia.
        -- destruct silent; cbn [negb]; lazy beta iota;
             match goal with
             | |- context [retry fuel _ _ _ _ _ ?w2] =>
                 destruct (IH (Polling er (pr + 1)) w2) as [IHg IHs];
                 change (gets w2) with (gets w1) in *;
                 change (sleeps w2) with (sleeps w1) in *
             end;
             unfold polls_left, pollsBeforeRetry in *; split; lia.
        -- unfold polls_left, pollsBeforeRetry in *. split; lia.
    + destruct (Nat.ltb 1 er) eqn:Her.
      * unfold throw. cbn [snd]. split; lia.
      * apply Nat.ltb_ge in Her. mrun.
        destruct (enable_counts projectId apiName w) as [_ Hg].
        destruct (enable_pace projectId apiName w) as [_ Hs].
        destruct (enable projectId apiName w) as [[[]|e] w1]; cbn [snd] in *.
        -- destruct (IH (Polling er 0) w1) as [IHg IHs].
           unfold polls_left, pollsBeforeRetry in *. split; lia.
        -- unfold polls_left, pollsBeforeRetry in *. split; lia.
Qed.

(** X17. The [api_enabled] telemetry event is sent exactly when the retry loop
    ends well: once if [enableApiWithRetries] or [pollCheckEnabled]
    returns, never if it throws.  [ensure] sends it at most once, and not
    at all when it throws or when its first [check] finds the service
    enabled. *)
Theorem telemetry_marks_enablement (projectId apiUri prefix : string)
    (silent : bool) (enablementRetries pollRetries : nat) (w : World) :
  tracks (snd (enableApiWithRetries projectId apiUri prefix silent
                 enablementRetries w))
  = tracks w
    + (if returned (fst (enableApiWithRetries projectId apiUri prefix silent
                           enablementRetries w)) then 1 else 0)
  /\ tracks (snd (pollCheckEnabled projectId apiUri prefix silent
                    enablementRetries pollRetries w))
     = tracks w
       + (if returned (fst (pollCheckEnabled projectId apiUri prefix silent
                              enablementRetries pollRetries w)) then 1 else 0)
  /\ tracks (snd (ensure projectId apiUri prefix silent w)) <= tracks w + 1
  /\ (returned (fst (ensure projectId apiUri prefix silent w)) = false ->
      tracks (snd (ensure projectId apiUri prefix silent w)) = tracks w)
  /\ (forall hostname w',
        apiNameOf apiUri = Some hostname ->
        check projectId hostname prefix silent
          (announced prefix hostname silent w) = (Return true, w') ->
        tracks (snd (ensure projectId apiUri prefix silent w)) = tracks w).
Proof.
  split; [apply retry_telemetry; lia|]. split; [apply retry_telemetry; lia|].
  assert (Hann : forall h, tracks (announced prefix h silent w) = tracks w)
    by (intros h; unfold announced; destruct silent; reflexivity).
  destruct (apiNameOf apiUri) as [hostname|] eqn:Hname.
  - rewrite (ensure_run _ _ _ _ _ _ Hname).
    destruct (check_pace projectId hostname prefix silent
                (announced prefix hostname silent w)) as [Ht _].
    rewrite Hann in Ht.
    destruct (check projectId hostname prefix silent
                (announced prefix hostname silent w)) as [[[|]|e] w1] eqn:Hcheck;
      cbn [fst snd] in *.
    + split; [lia|]. split; [discriminate|]. intros h w' [= <-] _. exact Ht.
    + match goal with
      | |- context [enableApiWithRetries _ _ _ _ 0 ?w2] =>
          pose proof (retry_telemetry projectId hostname prefix silent
                        (budget (Enabling 0)) (Enabling 0) w2 (le_n _)) as Hloop;
          assert (Ht2 : tracks w2 = tracks w1) by (destruct silent; reflexivity)
      end.
      unfold enableApiWithRetries.
      destruct (returned (fst (retry _ _ _ _ _ _ _))).
      * split; [lia|]. split; [discriminate|].
        intros h w' [= <-] Hc. rewrite Hcheck in Hc. discriminate.
      * split; [lia|]. split; [intros _; lia|].
        intros h w' [= <-] Hc. rewrite Hcheck in Hc. discriminate.
    + split; [lia|]. split; [intros _; exact Ht|].
      intros h w' [= <-] Hc. rewrite Hcheck in Hc. discriminate.
  - rewrite (ensure_unparsed _ _ _ _ _ Hname). cbn [fst snd].
    split; [lia|]. split; [reflexivity|]. discriminate.
Qed.

(** X18. The retry loop never asks without having slept: the status queries it
    sends are at most as many as the [pollInterval] sleeps it takes, and
    those are at most 13 per remaining enable attempt (less the polls
    already made in the current cycle). *)
Theorem polls_are_paced (projectId apiName prefix : string) (silent : bool)
    (enablementRetries pollRetries : nat) (w : World) :
  let w1 := snd (enableApiWithRetries projectId apiName prefix silent
                   enablementRetries w) in
  let w2 := snd (pollCheckEnabled projectId apiName prefix silent
                   enablementRetries pollRetries w) in
  (gets w1 - gets w <= sleeps w1 - sleeps w
   /\ sleeps w1 - sleeps w <= (2 - enablementRetries) * (pollsBeforeRetry + 1))
  /\ (gets w2 - gets w <= sleeps w2 - sleeps w
      /\ sleeps w2 - sleeps w
         <= (pollsBeforeRetry + 1 - pollRetries)
            + (1 - enablementRetries) * (pollsBeforeRetry + 1)).
Proof.
  cbn zeta. split.
  - destruct (retry_throttle projectId apiName prefix silent
                (budget (Enabling enablementRetries))
                (Enabling enablementRetries) w) as [Hg Hs].
    unfold enableApiWithRetries. cbn [polls_left] in Hs.
    unfold pollsBeforeRetry in *. split; lia.
  - destruct (retry_throttle projectId apiName prefix silent
                (budget (Polling enablementRetries pollRetries))
                (Polling enablementRetries pollRetries) w) as [Hg Hs].
    unfold pollCheckEnabled. cbn [polls_left] in Hs.
    unfold pollsBeforeRetry in *. split; lia.
Qed.

End Pace.

(** * The release script *)

Section PublishScript.
Import Publish.
Variable m : Machine.

Ltac sh_unfold :=
  unfold publish_sh, script, release, printusage;
  unfold mbind, Sh_bind, mret, Sh_ret, echo, exit, run, run_trapped, capture, test.

Ltac sh_step :=
  lazymatch goal with
  | |- context [exit_status m ?l ?a] =>
      let st := fresh "st" in
      destruct (exit_status m l a) as [|st];
      try (generalize (output m l a); intro);
      lazy beta iota zeta delta [Nat.eqb negb fst snd]
  end.

(** Runs the script to each of its ends and applies [leaf] there. *)
Ltac sh_run leaf :=
  repeat (sh_step;
          lazymatch goal with
          | |- context [exit_status m _ _] => idtac
          | _ => leaf
          end).

(** Every run of the script passes the audit. *)
Lemma script_audit (VERSION REPOSITORY_ORG REPOSITORY_NAME : string) :
  audit VERSION REPOSITORY_ORG REPOSITORY_NAME
    (publish_sh m VERSION REPOSITORY_ORG REPOSITORY_NAME) = true.
Proof.
  sh_unfold.
  destruct (String.eqb VERSION "") eqn:Hempty; [reflexivity|].
  destruct (String.eqb VERSION "artifactsOnly") eqn:Hart;
    [unfold audit; rewrite Hart; reflexivity|].
  destruct (String.eqb VERSION "patch" || String.eqb VERSION "minor"
            || String.eqb VERSION "major") eqn:Hrel; cbn [negb]; [|reflexivity].
  destruct (String.eqb REPOSITORY_ORG "") eqn:Horg; [reflexivity|].
  destruct (String.eqb REPOSITORY_NAME "") eqn:Hname; [reflexivity|].
  lazy beta iota.
  sh_run ltac:(unfold audit; rewrite ?Hart, ?Hrel, ?Horg, ?Hname; reflexivity).
Qed.

(** X20. No command is started after one has failed, and an exit code of 0
    means that every command that ran let the script go on. *)
Theorem script_stops_at_first_failure
    (VERSION REPOSITORY_ORG REPOSITORY_NAME : string) :
  let r := publish_sh m VERSION REPOSITORY_ORG REPOSITORY_NAME in
  forallb went_on (List.tl (commands (snd r))) = true
  /\ (fst r = 0 -> forallb went_on (commands (snd r)) = true).
Proof.
  cbn zeta.
  pose proof (script_audit VERSION REPOSITORY_ORG REPOSITORY_NAME) as Haudit.
  unfold audit in Haudit. cbn zeta in Haudit.
  destruct (publish_sh m VERSION REPOSITORY_ORG REPOSITORY_NAME) as [code log].
  cbn [fst snd] in *.
  apply andb_true_iff in Haudit as [Haudit _].
  apply andb_true_iff in Haudit as [Haudit _].
  apply andb_true_iff in Haudit as [Htl Hall].
  split; [exact Htl|]. intros ->. exact Hall.
Qed.

(** X19. The arguments are checked before anything is run.  With
    [artifactsOnly] the script prints one line and exits with 0, whatever
    the environment.  With any other version that is not [patch], [minor]
    or [major], or with [REPOSITORY_ORG] or [REPOSITORY_NAME] empty, it
    prints the usage text and exits with 1.  In both cases no command is
    started. *)
Theorem arguments_are_checked_first
    (VERSION REPOSITORY_ORG REPOSITORY_NAME : string) :
  (VERSION = "artifactsOnly" ->
   publish_sh m VERSION REPOSITORY_ORG REPOSITORY_NAME
   = (0, [Echo "Skipping npm package publish since VERSION is artifactsOnly."]))
  /\ (VERSION <> "artifactsOnly" ->
      ~ release_version VERSION \/ REPOSITORY_ORG = "" \/ REPOSITORY_NAME = "" ->
      publish_sh m VERSION REPOSITORY_ORG REPOSITORY_NAME = (1, usage)
      /\ commands (snd (publish_sh m VERSION REPOSITORY_ORG REPOSITORY_NAME)) = []).
Proof.
  split.
  - intros ->. reflexivity.
  - intros Hart Hbad.
    assert (Hrun : publish_sh m VERSION REPOSITORY_ORG REPOSITORY_NAME = (1, usage)).
    { apply String.eqb_neq in Hart.
      unfold publish_sh, script. unfold mbind, Sh_bind at 1 2 3.
      destruct (String.eqb VERSION "") eqn:Hempty; [reflexivity|].
      rewrite Hart.
      destruct (String.eqb VERSION "patch" || String.eqb VERSION "minor"
                || String.eqb VERSION "major") eqn:Hrel; cbn [negb];
        [|reflexivity].
      destruct Hbad as [Hno|[->| ->]].
      - exfalso. apply Hno. unfold release_version.
        apply orb_true_iff in Hrel as [Hrel|Hrel];
          [apply orb_true_iff in Hrel as [Hrel|Hrel]|];
          apply String.eqb_eq in Hrel; auto.
      - reflexivity.
      - destruct (String.eqb REPOSITORY_ORG ""); reflexivity. }
    rewrite Hrun. split; reflexivity.
Qed.

(** X21. The package is published only after every check has passed: if the
    [clean-publish] command was started, then [hub], [node] and [jq] were
    found, the npm login was verified, the repository was cloned, the
    changelog was found non-empty, and [npm install], [npm test] and
    [npm version] all succeeded. *)
Theorem publish_runs_only_after_checks
    (VERSION REPOSITORY_ORG REPOSITORY_NAME : string) :
  let log := snd (publish_sh m VERSION REPOSITORY_ORG REPOSITORY_NAME) in
  did ["npx"; "clean-publish@5.0.0"] log = true ->
  did_ok ["which"; "hub"] log = true
  /\ did_ok ["which"; "node"] log = true
  /\ did_ok ["which"; "jq"] log = true
  /\ did_ok ["npm"; "whoami"] log = true
  /\ did_ok ["git"; "clone"] log = true
  /\ changelog_found log = true
  /\ did_ok ["npm"; "install"] log = true
  /\ did_ok ["npm"; "test"] log = true
  /\ did_ok ["npm"; "version"] log = true.
Proof.
  cbn zeta.
  pose proof (script_audit VERSION REPOSITORY_ORG REPOSITORY_NAME) as Haudit.
  unfold audit in Haudit. cbn zeta in Haudit.
  destruct (publish_sh m VERSION REPOSITORY_ORG REPOSITORY_NAME) as [code log].
  cbn [fst snd] in *. intros Hdid.
  apply andb_true_iff in Haudit as [Haudit _].
  apply andb_true_iff in Haudit as [_ Hguard].
  rewrite Hdid in Hguard. cbn [implb] in Hguard.
  repeat (apply andb_true_iff in Hguard as [Hguard ?]).
  repeat split; assumption.
Qed.

(** X22. An exit code of 0 means a finished release, unless the version was
    [artifactsOnly]: the version was [patch], [minor] or [major], and the
    package was published, the changelog reset committed, the branch and
    tags pushed and the GitHub release created, each with status 0. *)
Theorem exit_zero_means_released
    (VERSION REPOSITORY_ORG REPOSITORY_NAME : string) :
  let r := publish_sh m VERSION REPOSITORY_ORG REPOSITORY_NAME in
  fst r = 0 ->
  VERSION <> "artifactsOnly" ->
  release_version VERSION
  /\ REPOSITORY_ORG <> "" /\ REPOSITORY_NAME <> ""
  /\ did_ok ["npx"; "clean-publish@5.0.0"] (snd r) = true
  /\ did_ok ["git"; "commit"] (snd r) = true
  /\ did_ok ["git"; "push"; "origin"; "master"; "--tags"] (snd r) = true
  /\ did_ok ["hub"; "release"; "create"] (snd r) = true.
Proof.
  cbn zeta.
  pose proof (script_audit VERSION REPOSITORY_ORG REPOSITORY_NAME) as Haudit.
  unfold audit in Haudit. cbn zeta in Haudit.
  destruct (publish_sh m VERSION REPOSITORY_ORG REPOSITORY_NAME) as [code log].
  cbn [fst snd] in *. intros -> Hart.
  apply String.eqb_neq in Hart.
  apply andb_true_iff in Haudit as [_ Hdone].
  rewrite Hart in Hdone. cbn [Nat.eqb negb andb implb] in Hdone.
  repeat (apply andb_true_iff in Hdone as [Hdone ?]).
  repeat match goal with
         | Hn : negb _ = true |- _ =>
             apply negb_true_iff, String.eqb_neq in Hn
         end.
  split.
  { unfold release_version.
    apply orb_true_iff in Hdone as [Hdone|Hdone];
      [apply orb_true_iff in Hdone as [Hdone|Hdone]|];
      apply String.eqb_eq in Hdone; auto. }
  repeat split; assumption.
Qed.

End PublishScript.

Lemma script_stops_at_first_failure_witness :
  let r := Publish.publish_sh Publish.failing_tests "minor" "firebase"
             "firebase-tools" in
  fst r = 2
  /\ forallb Publish.went_on (List.tl (Publish.commands (snd r))) = true
  /\ Publish.did ["npx"] (snd r) = false
  /\ (fst r = 0 -> forallb Publish.went_on (Publish.commands (snd r)) = true).
Proof.
  intros r. split; [vm_compute; reflexivity|].
  destruct (script_stops_at_first_failure Publish.failing_tests
              "minor" "firebase" "firebase-tools") as [Htl Hall].
  split; [exact Htl|]. split; [vm_compute; reflexivity|exact Hall].
Defined.

Lemma arguments_are_checked_first_witness :
  Publish.publish_sh Publish.obliging "artifactsOnly" "" ""
  = (0, [Publish.Echo "Skipping npm package publish since VERSION is artifactsOnly."])
  /\ ("release" <> "artifactsOnly"
      /\ (~ Publish.release_version "release" \/ "firebase" = "" \/ "firebase-tools" = "")
      /\ Publish.publish_sh Publish.obliging "release" "firebase" "firebase-tools"
         = (1, Publish.usage))
  /\ ("patch" <> "artifactsOnly"
      /\ (~ Publish.release_version "patch" \/ "" = "" \/ "firebase-tools" = "")
      /\ Publish.publish_sh Publish.obliging "patch" "" "firebase-tools"
         = (1, Publish.usage)).
Proof.
  assert (Hne1 : "release" <> "artifactsOnly") by discriminate.
  assert (Hne2 : "patch" <> "artifactsOnly") by discriminate.
  assert (Hbad1 : ~ Publish.release_version "release"
                  \/ "firebase" = "" \/ "firebase-tools" = "").
  { left. intros [Hv|[Hv|Hv]]; discriminate Hv. }
  assert (Hbad2 : ~ Publish.release_version "patch"
                  \/ "" = "" \/ "firebase-tools" = "").
  { right. left. reflexivity. }
  split; [|split].
  - exact (proj1 (arguments_are_checked_first Publish.obliging
                    "artifactsOnly" "" "") eq_refl).
  - split; [exact Hne1|]. split; [exact Hbad1|].
    exact (proj1 (proj2 (arguments_are_checked_first Publish.obliging
                           "release" "firebase" "firebase-tools") Hne1 Hbad1)).
  - split; [exact Hne2|]. split; [exact Hbad2|].
    exact (proj1 (proj2 (arguments_are_checked_first Publish.obliging
                           "patch" "" "firebase-tools") Hne2 Hbad2)).
Defined.

Lemma publish_runs_only_after_checks_witness :
  let log := snd (Publish.publish_sh Publish.obliging "patch" "firebase"
                    "firebase-tools") in
  Publish.did ["npx"; "clean-publish@5.0.0"] log = true
  /\ Publish.did_ok ["npm"; "test"] log = true
  /\ Publish.changelog_found log = true.
Proof.
  intros log.
  assert (Hdid : Publish.did ["npx"; "clean-publish@5.0.0"] log = true)
    by (vm_compute; reflexivity).
  split; [exact Hdid|].
  destruct (publish_runs_only_after_checks Publish.obliging
              "patch" "firebase" "firebase-tools" Hdid)
    as (_ & _ & _ & _ & _ & Hlog & _ & Htest & _).
  split; [exact Htest|exact Hlog].
Defined.

Lemma exit_zero_means_released_witness :
  let r := Publish.publish_sh Publish.obliging "major" "firebase"
             "firebase-tools" in
  fst r = 0
  /\ "major" <> "artifactsOnly"
  /\ Publish.release_version "major"
  /\ Publish.did_ok ["hub"; "release"; "create"] (snd r) = true.
Proof.
  intros r.
  assert (Hzero : fst r = 0) by (vm_compute; reflexivity).
  assert (Hne : "major" <> "artifactsOnly") by discriminate.
  split; [exact Hzero|]. split; [exact Hne|].
  destruct (exit_zero_means_released Publish.obliging
              "major" "firebase" "firebase-tools" Hzero Hne)
    as (Hv & _ & _ & _ & _ & _ & Hrel).
  split; [exact Hv|exact Hrel].
Defined.

Lemma telemetry_marks_enablement_witness :
  returned (fst (@enableApiWithRetries never_enabled "p1" "foo.googleapis.com" ""
                   true 0 fresh)) = true
  /\ tracks (snd (@enableApiWithRetries never_enabled "p1" "foo.googleapis.com" ""
                    true 0 fresh)) = tracks fresh + 1
  /\ returned (fst (@ensure transport_failure "p1" "foo.googleapis.com" "" true
                      fresh)) = false
  /\ tracks (snd (@ensure transport_failure "p1" "foo.googleapis.com" "" true
                    fresh)) = tracks fresh.
Proof.
  assert (Hret : returned (fst (@enableApiWithRetries never_enabled "p1"
                                  "foo.googleapis.com" "" true 0 fresh)) = true)
    by (vm_compute; reflexivity).
  assert (Hthrown : returned (fst (@ensure transport_failure "p1"
                                     "foo.googleapis.com" "" true fresh)) = false)
    by (vm_compute; reflexivity).
  split; [exact Hret|]. split.
  - pose proof (proj1 (@telemetry_marks_enablement never_enabled
                         "p1" "foo.googleapis.com" "" true 0 0 fresh)) as Ht.
    rewrite Hret in Ht. exact Ht.
  - split; [exact Hthrown|].
    exact (proj1 (proj2 (proj2 (proj2 (@telemetry_marks_enablement
             transport_failure "p1" "foo.googleapis.com" "" true 0 0 fresh))))
             Hthrown).
Defined.
